(** * TinyG2 xio.cpp: the extended IO front end

    A shallow embedding of [src/TinyG2/xio.cpp] and the properties of its
    line reader, integrity guard, connection mailboxes, periodic callback
    and SPI setter.

    Conventions.  C integers are [Z] with the conversions written out
    ([to_uint8], [to_uint16]).  The caller's buffer is a [list Z] of cells
    holding [uint8_t] values; its length is the extent of the array the
    pointer designates, and a store outside it is the outcome
    [OutOfBounds].  The receive side of the USB serial device is the queue
    of bytes that have arrived and were not read yet. *)

From Stdlib Require Import ZArith Lia Bool.
From Stdlib.Strings Require Import Byte.
From Stdlib Require Import SpecFloat.
From stdpp Require Import base list.

Local Open Scope Z_scope.

(** ** Status codes and character constants *)

(** The [stat_t] codes this file returns (tinyg2.h enumerates them). *)
Inductive stat_t : Type :=
  | STAT_OK
  | STAT_EAGAIN
  | STAT_EOF
  | STAT_BUFFER_FULL
  | STAT_FILE_SIZE_EXCEEDED
  | STAT_XIO_ASSERTION_FAILURE.

(** Modelled from the spec: xio.h, which defines the character constants,
    is not part of the sources.  [NUL], [LF] and [CR] are the ASCII codes;
    [_FDEV_ERR] is the -1 that the comment of [read_char] gives. *)
Definition NUL : Z := 0.
Definition LF : Z := 10.
Definition CR : Z := 13.
Definition _FDEV_ERR : Z := -1.

(** [(uint8_t)c] and the wrap-around of a [uint16_t]. *)
Definition to_uint8 (c : Z) : Z := c mod 2 ^ 8.
Definition to_uint16 (n : Z) : Z := n mod 2 ^ 16.

(** The [int] a received byte is read as. *)
Definition byte_to_int (b : byte) : Z := Z.of_N (Byte.to_N b).

(** ** The byte source *)

(** Modelled from the spec: [SerialUSB.readByte] belongs to the hardware
    layer, which is not part of the sources.  It is the non-blocking
    single-byte read: it takes the oldest byte that has arrived, or yields
    the no-data value when none is pending. *)
Definition readByte (rx : list byte) : Z * list byte :=
  match rx with
  | [] => (_FDEV_ERR, [])
  | b :: rx' => (byte_to_int b, rx')
  end.

(** [read_char()]: a single char from SerialUSB, or -1 if none available. *)
Definition read_char (rx : list byte) : Z * list byte := readByte rx.

(** ** The line reader *)

(** What a call of [read_line] leaves behind: the status returned with the
    buffer, [*index] and the device queue, or a store outside the array. *)
Inductive outcome : Type :=
  | Returns (st : stat_t) (buffer : list Z) (index : Z) (rx : list byte)
  | OutOfBounds.

(** [buffer[index] = v]. *)
Definition store (buffer : list Z) (index v : Z) : option (list Z) :=
  if (0 <=? index) && (index <? Z.of_nat (length buffer))
  then Some (<[Z.to_nat index := v]> buffer)
  else None.

(** The [for] loop of [read_line].  Every iteration that goes round again
    has taken a byte off the queue, which is what [fuel] counts. *)
Fixpoint read_line_loop (fuel : nat) (rx : list byte) (buffer : list Z)
    (index size : Z) : option outcome :=
  match fuel with
  | O => None
  | S fuel' =>
    if index <? size then
      let '(c, rx') := read_char rx in
      if negb (c =? _FDEV_ERR) then
        match store buffer index (to_uint8 c) with
        | None => Some OutOfBounds
        | Some buffer1 =>
          if (c =? LF) || (c =? CR) then
            match store buffer1 index NUL with
            | None => Some OutOfBounds
            | Some buffer2 => Some (Returns STAT_OK buffer2 index rx')
            end
          else
            read_line_loop fuel' rx' buffer1 (to_uint16 (index + 1)) size
        end
      else Some (Returns STAT_EAGAIN buffer index rx')
    else Some (Returns STAT_BUFFER_FULL buffer index rx)
  end.

(** [read_line(buffer, index, size)] run against the queue [rx]. *)
Definition read_line (rx : list byte) (buffer : list Z) (index size : Z)
    : option outcome :=
  if index >=? size then Some (Returns STAT_FILE_SIZE_EXCEEDED buffer index rx)
  else read_line_loop (S (length rx)) rx buffer index size.

(** A byte that ends a line. *)
Definition is_terminator (b : byte) : bool :=
  (byte_to_int b =? LF) || (byte_to_int b =? CR).

(** The buffer with the cells from [i] on overwritten by [l]. *)
Definition blit (buffer : list Z) (i : nat) (l : list Z) : list Z :=
  take i buffer ++ l ++ drop (i + length l) buffer.

(** ** The xio singleton *)

(** Modelled from the spec: xio.h, which declares [xioDevice_t],
    [xioChannel_t] and [xioSingleton_t], is not part of the sources.  A
    device has its connection state and the pending state that the
    hardware notification writes; a channel has its type; the singleton
    holds the two tables and the SPI flag between the two sentinels. *)
Record xioDevice_t : Type := mk_xioDevice
  { current_state : Z;
    next_state : Z }.

Record xioChannel_t : Type := mk_xioChannel
  { type : Z }.

Record xioSingleton_t : Type := mk_xioSingleton
  { magic_start : Z;
    d : list xioDevice_t;
    c : list xioChannel_t;
    spi_state : Z;
    magic_end : Z }.

#[global] Instance xioDevice_t_inhabited : Inhabited xioDevice_t :=
  populate (mk_xioDevice 0 0).

Definition set_magic_start (v : Z) (x : xioSingleton_t) : xioSingleton_t :=
  mk_xioSingleton v (d x) (c x) (spi_state x) (magic_end x).
Definition set_magic_end (v : Z) (x : xioSingleton_t) : xioSingleton_t :=
  mk_xioSingleton (magic_start x) (d x) (c x) (spi_state x) v.
Definition set_d (v : list xioDevice_t) (x : xioSingleton_t) : xioSingleton_t :=
  mk_xioSingleton (magic_start x) v (c x) (spi_state x) (magic_end x).
Definition set_c (v : list xioChannel_t) (x : xioSingleton_t) : xioSingleton_t :=
  mk_xioSingleton (magic_start x) (d x) v (spi_state x) (magic_end x).
Definition set_spi_state (v : Z) (x : xioSingleton_t) : xioSingleton_t :=
  mk_xioSingleton (magic_start x) (d x) (c x) v (magic_end x).
Definition set_next_state (v : Z) (dev : xioDevice_t) : xioDevice_t :=
  mk_xioDevice (current_state dev) v.

(** The pin directions of the hardware layer. *)
Inductive PinMode : Type := kInput | kOutput.

(** The three SPI pins that [xio_set_spi] switches. *)
Record spi_pins : Type := mk_spi_pins
  { spi_miso_pin : PinMode;
    spi_mosi_pin : PinMode;
    spi_sck_pin : PinMode }.

(** [xio_set_spi() = 0=disable, 1=enable]. *)
Definition SPI_DISABLE : Z := 0.
Definition SPI_ENABLE : Z := 1.

Section Xio.

(** The constants of the absent headers are parameters: the sentinel
    value, the indices of the two USB devices in the table [d], the sizes
    of the two tables and the codes of the two connection states. *)
Variable MAGICNUM : Z.
Variables DEV_USB0 DEV_USB1 DEV_MAX CHAN_MAX : nat.
Variables DEVICE_CONNECTED DEVICE_NOT_CONNECTED : Z.

(** [xio_init_assertions()]. *)
Definition xio_init_assertions (xio : xioSingleton_t) : xioSingleton_t :=
  set_magic_end MAGICNUM (set_magic_start MAGICNUM xio).

(** [xio_test_assertions()]: the status with the singleton it leaves. *)
Definition xio_test_assertions (xio : xioSingleton_t)
    : stat_t * xioSingleton_t :=
  if negb (magic_start xio =? MAGICNUM) || negb (magic_end xio =? MAGICNUM)
  then (STAT_XIO_ASSERTION_FAILURE, xio)
  else (STAT_OK, xio).

(** The callback [xio_init] hands to [SerialUSB.setConnectionCallback]. *)
Definition usb0_connection_callback (connected : bool)
    (xio : xioSingleton_t) : xioSingleton_t :=
  set_d (alter (set_next_state
                  (if connected then DEVICE_CONNECTED
                   else DEVICE_NOT_CONNECTED)) DEV_USB0 (d xio)) xio.

(** The callback [xio_init] hands to [SerialUSB1.setConnectionCallback]. *)
Definition usb1_connection_callback (connected : bool)
    (xio : xioSingleton_t) : xioSingleton_t :=
  set_d (alter (set_next_state
                  (if connected then DEVICE_CONNECTED
                   else DEVICE_NOT_CONNECTED)) DEV_USB1 (d xio)) xio.

(** [xio_init()]: the sentinels, then every device and every channel
    cleared, each channel typed by its number.  The tables [d] and [c] are
    the arrays of [DEV_MAX] and [CHAN_MAX] entries, so the two loops stay
    within them.  The two callbacks above are what it registers with the
    hardware layer. *)
Definition xio_init (xio : xioSingleton_t) : xioSingleton_t :=
  let xio1 := xio_init_assertions xio in
  let xio2 :=
    foldl (fun x i => set_d (<[i := mk_xioDevice 0 0]> (d x)) x)
          xio1 (seq 0 DEV_MAX) in
  foldl (fun x i => set_c (<[i := mk_xioChannel (Z.of_nat i)]> (c x)) x)
        xio2 (seq 0 CHAN_MAX).

(** [xio_callback()]: the status with the singleton it leaves.  The
    entries of [DEV_USB0] and [DEV_USB1] are read with the total lookup,
    both being indices of the table. *)
Definition xio_callback (xio : xioSingleton_t) : stat_t * xioSingleton_t :=
  if (next_state (d xio !!! DEV_USB0) =? 0)
     && (next_state (d xio !!! DEV_USB1) =? 0)
  then (STAT_OK, xio)
  else (STAT_OK, xio).

(** A notification of the hardware layer: which port, and whether it is
    now connected. *)
Inductive notification : Type :=
  | Usb0 (connected : bool)
  | Usb1 (connected : bool).

Definition deliver (xio : xioSingleton_t) (n : notification)
    : xioSingleton_t :=
  match n with
  | Usb0 connected => usb0_connection_callback connected xio
  | Usb1 connected => usb1_connection_callback connected xio
  end.

(** The value a notification leaves in [next_state]. *)
Definition state_of (connected : bool) : Z :=
  if connected then DEVICE_CONNECTED else DEVICE_NOT_CONNECTED.

(** The pending state of the device at [dev] of the table, if there is
    one. *)
Definition pending (dev : nat) (xio : xioSingleton_t) : option Z :=
  next_state <$> d xio !! dev.

(** *** The SPI setter *)

(** The type of [nv->value] (config.h), its conversion to [uint8_t] and
    the comparison [fp_EQ] (util.h) are parameters as well; [__ARM] says
    whether the build is for the ARM target. *)
Variable value_t : Type.
Variable value_to_uint8 : value_t -> Z.
Variable fp_EQ : value_t -> Z -> bool.
Variable __ARM : bool.

Record nvObj_t : Type := mk_nvObj { value : value_t }.

(** [spi_miso_pin.setMode(m)] and the same for the other two pins. *)
Definition miso_setMode (m : PinMode) (pins : spi_pins) : spi_pins :=
  mk_spi_pins m (spi_mosi_pin pins) (spi_sck_pin pins).
Definition mosi_setMode (m : PinMode) (pins : spi_pins) : spi_pins :=
  mk_spi_pins (spi_miso_pin pins) m (spi_sck_pin pins).
Definition sck_setMode (m : PinMode) (pins : spi_pins) : spi_pins :=
  mk_spi_pins (spi_miso_pin pins) (spi_mosi_pin pins) m.

(** [xio_set_spi(nv)]: the status with the singleton and the pins. *)
Definition xio_set_spi (nv : nvObj_t) (xio : xioSingleton_t)
    (pins : spi_pins) : stat_t * xioSingleton_t * spi_pins :=
  let xio' := set_spi_state (value_to_uint8 (value nv)) xio in
  let pins' :=
    if __ARM then
      if fp_EQ (value nv) SPI_ENABLE then
        sck_setMode kOutput (mosi_setMode kOutput (miso_setMode kOutput pins))
      else if fp_EQ (value nv) SPI_DISABLE then
        sck_setMode kInput (mosi_setMode kInput (miso_setMode kInput pins))
      else pins
    else pins in
  (STAT_OK, xio', pins').

End Xio.

Arguments mk_nvObj {value_t} _.
Arguments value {value_t} _.

(** *** The setter on a C [float] *)

(** Modelled from the spec: config.h, which declares [nvObj_t], and
    util.h, which defines [fp_EQ] and [EPSILON], are not part of the
    sources; the spec calls the setting a numeric value, and the source
    converts it with [(uint8_t)] and compares it with [fp_EQ].  Here
    [nv->value] is a C [float], an IEEE binary32 number (precision 24,
    [emax] 128), and [fp_EQ(a, b)] is the comparison within a tolerance,
    [fabs(a - b) < EPSILON], with [EPSILON] the [float] nearest to
    0.00001. *)
Definition float_of_int (z : Z) : spec_float :=
  binary_normalize 24 128 z 0 false.

Definition EPSILON : spec_float :=
  SFdiv 24 128 (float_of_int 1) (float_of_int 100000).

Definition fp_EQ_float (a : spec_float) (b : Z) : bool :=
  SFltb (SFabs (SFsub 24 128 a (float_of_int b))) EPSILON.

(** [(uint8_t)f]: the fraction is cut off.  C defines the conversion when
    what is left lies from 0 to 255; for the other values (and for
    infinities and NaN) it leaves the result open, and the model takes the
    low eight bits (and 0), on which no statement below rests. *)
Definition float_to_uint8 (f : spec_float) : Z :=
  match f with
  | S754_finite s m e =>
      to_uint8 (cond_Zopp s (if 0 <=? e then Z.shiftl (Zpos m) e
                             else Z.shiftr (Zpos m) (- e)))
  | _ => 0
  end.

Definition xio_set_spi_float (__ARM : bool) (nv : nvObj_t spec_float)
    (xio : xioSingleton_t) (pins : spi_pins)
    : stat_t * xioSingleton_t * spi_pins :=
  xio_set_spi spec_float float_to_uint8 fp_EQ_float __ARM nv xio pins.

(** * Properties *)

(** ** Bytes and single steps of the loop *)

Lemma byte_to_int_range (b : byte) : 0 <= byte_to_int b < 256.
Proof.
  unfold byte_to_int. pose proof (Byte.to_N_bounded b). lia.
Qed.

Lemma to_uint8_byte (b : byte) : to_uint8 (byte_to_int b) = byte_to_int b.
Proof.
  unfold to_uint8. apply Z.mod_small.
  pose proof (byte_to_int_range b). lia.
Qed.

Lemma byte_is_data (b : byte) : negb (byte_to_int b =? _FDEV_ERR) = true.
Proof.
  pose proof (byte_to_int_range b). unfold _FDEV_ERR.
  apply negb_true_iff, Z.eqb_neq. lia.
Qed.

Lemma to_uint16_small (n : Z) : 0 <= n <= 65535 -> to_uint16 n = n.
Proof. intros H. unfold to_uint16. apply Z.mod_small. lia. Qed.

Lemma store_Some (buffer : list Z) (index v : Z) :
  0 <= index < Z.of_nat (length buffer) ->
  store buffer index v = Some (<[Z.to_nat index := v]> buffer).
Proof.
  intros [H0 H1]. unfold store.
  apply Z.leb_le in H0. apply Z.ltb_lt in H1. now rewrite H0, H1.
Qed.

Lemma store_None (buffer : list Z) (index v : Z) :
  ~ (0 <= index < Z.of_nat (length buffer)) -> store buffer index v = None.
Proof.
  intros H. unfold store.
  destruct (0 <=? index) eqn:E0; [| reflexivity].
  destruct (index <? Z.of_nat (length buffer)) eqn:E1; [| reflexivity].
  apply Z.leb_le in E0. apply Z.ltb_lt in E1. lia.
Qed.

Lemma store_length (buffer buffer' : list Z) (index v : Z) :
  store buffer index v = Some buffer' -> length buffer' = length buffer.
Proof.
  unfold store. destruct (_ && _); [| discriminate].
  intros [= <-]. apply length_insert.
Qed.

(** One turn of the loop on an empty queue, on a full buffer, and on a
    queue that starts with the byte [b]. *)
Lemma loop_no_data fuel buffer index size :
  index < size ->
  read_line_loop (S fuel) [] buffer index size
  = Some (Returns STAT_EAGAIN buffer index []).
Proof.
  intros H. apply Z.ltb_lt in H. cbn [read_line_loop]. now rewrite H.
Qed.

Lemma loop_full fuel rx buffer index size :
  size <= index ->
  read_line_loop (S fuel) rx buffer index size
  = Some (Returns STAT_BUFFER_FULL buffer index rx).
Proof.
  intros H. apply Z.ltb_ge in H. cbn [read_line_loop]. now rewrite H.
Qed.

Lemma loop_byte fuel b rx buffer index size :
  index < size ->
  read_line_loop (S fuel) (b :: rx) buffer index size
  = match store buffer index (byte_to_int b) with
    | None => Some OutOfBounds
    | Some buffer1 =>
      if is_terminator b then
        match store buffer1 index NUL with
        | None => Some OutOfBounds
        | Some buffer2 => Some (Returns STAT_OK buffer2 index rx)
        end
      else read_line_loop fuel rx buffer1 (to_uint16 (index + 1)) size
    end.
Proof.
  intros H. apply Z.ltb_lt in H.
  cbn [read_line_loop read_char readByte]. rewrite H.
  now rewrite byte_is_data, to_uint8_byte.
Qed.

Lemma loop_terminator fuel b rx buffer index size :
  index < size -> 0 <= index < Z.of_nat (length buffer) ->
  is_terminator b = true ->
  read_line_loop (S fuel) (b :: rx) buffer index size
  = Some (Returns STAT_OK (<[Z.to_nat index := NUL]> buffer) index rx).
Proof.
  intros H Hin Ht. rewrite loop_byte by assumption.
  rewrite store_Some by assumption. rewrite Ht.
  rewrite store_Some by (rewrite length_insert; assumption).
  now rewrite list_insert_insert_eq.
Qed.

Lemma loop_data fuel b rx buffer index size :
  index < size -> 0 <= index < Z.of_nat (length buffer) ->
  is_terminator b = false ->
  read_line_loop (S fuel) (b :: rx) buffer index size
  = read_line_loop fuel rx (<[Z.to_nat index := byte_to_int b]> buffer)
      (to_uint16 (index + 1)) size.
Proof.
  intros H Hin Ht. rewrite loop_byte by assumption.
  rewrite store_Some by assumption. now rewrite Ht.
Qed.

(** The fuel [read_line] gives the loop is enough: more changes nothing. *)
Lemma loop_fuel rx : forall fuel buffer index size,
  (length rx < fuel)%nat ->
  read_line_loop fuel rx buffer index size
  = read_line_loop (S (length rx)) rx buffer index size.
Proof.
  induction rx as [| b rx IH]; intros fuel buffer index size Hf;
    (destruct fuel as [| fuel]; [cbn in Hf; lia |]).
  - destruct (Z.lt_ge_cases index size).
    + now rewrite !loop_no_data.
    + now rewrite !loop_full.
  - destruct (Z.lt_ge_cases index size).
    + rewrite !loop_byte by assumption.
      destruct (store buffer index (byte_to_int b)); [| reflexivity].
      destruct (is_terminator b); [reflexivity |].
      cbn [length] in *. rewrite (IH fuel) by lia. reflexivity.
    + now rewrite !loop_full.
Qed.

(** ** Runs of data bytes *)

Lemma blit_nil (buffer : list Z) (i : nat) : blit buffer i [] = buffer.
Proof. unfold blit. cbn [length app]. rewrite Nat.add_0_r. apply take_drop. Qed.

Lemma blit_length (buffer : list Z) (i : nat) (l : list Z) :
  (i + length l <= length buffer)%nat -> length (blit buffer i l) = length buffer.
Proof.
  intros H. unfold blit. rewrite !length_app, length_take, length_drop. lia.
Qed.

(** Storing [v] at [i] and then laying [l] behind it is laying [v :: l]. *)
Lemma blit_insert (buffer : list Z) (i : nat) (v : Z) (l : list Z) :
  (i < length buffer)%nat ->
  blit (<[i := v]> buffer) (S i) l = blit buffer i (v :: l).
Proof.
  intros H. unfold blit.
  rewrite (take_S_r _ i v) by (now apply list_lookup_insert_eq).
  rewrite take_insert_ge by lia.
  rewrite drop_insert_lt by lia.
  cbn [length]. rewrite <- app_assoc. cbn [app].
  now replace (S i + length l)%nat with (i + S (length l))%nat by lia.
Qed.

(** Storing [v] behind what [blit] laid at [i] extends the laid list. *)
Lemma blit_snoc (buffer : list Z) (i : nat) (l : list Z) (v : Z) :
  (i + length l < length buffer)%nat ->
  <[(i + length l)%nat := v]> (blit buffer i l) = blit buffer i (l ++ [v]).
Proof.
  intros H. unfold blit.
  assert (Ht : length (take i buffer) = i) by (rewrite length_take; lia).
  rewrite insert_app_r_alt by lia. rewrite Ht.
  rewrite insert_app_r_alt by lia.
  replace (i + length l - i - length l)%nat with 0%nat by lia.
  rewrite length_app. cbn [length].
  rewrite <- (app_assoc l [v]). cbn [app].
  destruct (drop (i + length l) buffer) as [| w rest] eqn:E.
  - apply (f_equal length) in E. rewrite length_drop in E. cbn in E. lia.
  - cbn [insert list_insert]. do 3 f_equal.
    replace (i + (length l + 1))%nat with (i + length l + 1)%nat by lia.
    rewrite <- (drop_drop buffer 1 (i + length l)), E. reflexivity.
Qed.

Lemma blit_lookup_outside (buffer : list Z) (i : nat) (l : list Z) (k : nat) :
  (i + length l <= length buffer)%nat ->
  (k < i \/ i + length l <= k)%nat ->
  blit buffer i l !! k = buffer !! k.
Proof.
  intros Hlen Hk. unfold blit.
  assert (Ht : length (take i buffer) = i) by (rewrite length_take; lia).
  destruct Hk as [Hk | Hk].
  - rewrite lookup_app_l by lia. apply lookup_take_lt. lia.
  - rewrite lookup_app_r by lia. rewrite lookup_app_r by lia.
    rewrite lookup_drop, Ht. f_equal. lia.
Qed.

Lemma blit_lookup_inside (buffer : list Z) (i : nat) (l : list Z) (k : nat) :
  (i <= length buffer)%nat -> (k < length l)%nat ->
  blit buffer i l !! (i + k)%nat = l !! k.
Proof.
  intros Hlen Hk. unfold blit.
  assert (Ht : length (take i buffer) = i) by (rewrite length_take; lia).
  rewrite lookup_app_r by lia. rewrite Ht.
  replace (i + k - i)%nat with k by lia.
  now apply lookup_app_l.
Qed.

(** A run of data bytes that neither fills the buffer nor takes the
    cursor past 65535 is laid into the buffer, the cursor moving behind it. *)
Lemma loop_run pre : forall fuel rest buffer index size,
  Forall (fun b => is_terminator b = false) pre ->
  0 <= index ->
  index + Z.of_nat (length pre) <= size ->
  index + Z.of_nat (length pre) <= 65535 ->
  index + Z.of_nat (length pre) <= Z.of_nat (length buffer) ->
  read_line_loop (length pre + fuel) (pre ++ rest) buffer index size
  = read_line_loop fuel rest
      (blit buffer (Z.to_nat index) (map byte_to_int pre))
      (index + Z.of_nat (length pre)) size.
Proof.
  induction pre as [| b pre IH]; intros fuel rest buffer index size Hd H0 Hs Hw Hb.
  - cbn [length app map Nat.add]. rewrite blit_nil. f_equal. cbn. lia.
  - apply Forall_cons in Hd as [Hb0 Hd]. cbn [length] in *.
    cbn [app map Nat.add].
    rewrite loop_data by (assumption || lia).
    rewrite to_uint16_small by lia.
    rewrite IH; try assumption; try lia.
    + replace (Z.to_nat (index + 1)) with (S (Z.to_nat index)) by lia.
      rewrite blit_insert by lia. f_equal. lia.
    + rewrite length_insert. lia.
Qed.

(** The same for a whole call, which starts the loop with its own fuel. *)
Lemma read_line_run pre rest buffer index size :
  Forall (fun b => is_terminator b = false) pre ->
  0 <= index < size ->
  index + Z.of_nat (length pre) <= size ->
  index + Z.of_nat (length pre) <= 65535 ->
  size <= Z.of_nat (length buffer) ->
  read_line (pre ++ rest) buffer index size
  = read_line_loop (S (length rest)) rest
      (blit buffer (Z.to_nat index) (map byte_to_int pre))
      (index + Z.of_nat (length pre)) size.
Proof.
  intros Hd Hi Hs Hw Hb. unfold read_line.
  destruct (Z.geb_spec index size) as [Hge | _]; [lia |].
  rewrite length_app.
  replace (S (length pre + length rest)) with (length pre + S (length rest))%nat
    by lia.
  apply loop_run; try assumption; lia.
Qed.

(** What the loop has consumed when it returns [STAT_OK]: data bytes and
    then a terminator, the rest of the queue being left alone. *)
Lemma loop_ok_inv rx : forall fuel buffer index size buffer' index' rx',
  read_line_loop fuel rx buffer index size
    = Some (Returns STAT_OK buffer' index' rx') ->
  exists pre t,
    rx = pre ++ t :: rx'
    /\ Forall (fun b => is_terminator b = false) pre
    /\ is_terminator t = true.
Proof.
  induction rx as [| b rx IH]; intros fuel buffer index size buffer' index' rx' H;
    (destruct fuel as [| fuel]; [discriminate |]);
    (destruct (Z.lt_ge_cases index size);
      [| rewrite loop_full in H by assumption; discriminate]).
  - rewrite loop_no_data in H by assumption. discriminate.
  - rewrite loop_byte in H by assumption.
    destruct (store buffer index (byte_to_int b)) as [buffer1 |];
      [| discriminate].
    destruct (is_terminator b) eqn:Ht.
    + destruct (store buffer1 index NUL); [| discriminate].
      injection H as _ _ <-. exists [], b. now repeat split.
    + apply IH in H as (pre & t & -> & Hd & Hterm).
      exists (b :: pre), t. repeat split; [| assumption].
      now constructor.
Qed.

(** ** The line reader: results *)

(** C1 (as amended).  With entry cursor 0, a size that the array has and
    a line of at most 65535 bytes that is shorter than the size,
    [read_line] returns [STAT_OK] at the first CR or LF; the buffer then
    holds the bytes before it, a NUL in its place and what was there
    behind; the cursor is the number of those bytes, and the terminator is
    taken off the queue.  And [STAT_OK] is returned only when data bytes
    followed by a CR or LF were consumed; if those bytes are at most 65535
    they are fewer than the size, and buffer and cursor are as said. *)
Theorem read_line_assembles_line (rx : list byte) (buffer : list Z) (size : Z) :
  0 < size <= Z.of_nat (length buffer) ->
  (forall pre t rest,
      rx = pre ++ t :: rest ->
      Forall (fun b => is_terminator b = false) pre ->
      is_terminator t = true ->
      Z.of_nat (length pre) < size ->
      Z.of_nat (length pre) <= 65535 ->
      read_line rx buffer 0 size
      = Some (Returns STAT_OK
                (map byte_to_int pre ++ NUL :: drop (S (length pre)) buffer)
                (Z.of_nat (length pre)) rest))
  /\ (forall buffer' index' rx',
      read_line rx buffer 0 size = Some (Returns STAT_OK buffer' index' rx') ->
      exists pre t,
        rx = pre ++ t :: rx'
        /\ Forall (fun b => is_terminator b = false) pre
        /\ is_terminator t = true
        /\ (Z.of_nat (length pre) <= 65535 ->
            Z.of_nat (length pre) < size
            /\ index' = Z.of_nat (length pre)
            /\ buffer'
               = map byte_to_int pre ++ NUL :: drop (S (length pre)) buffer)).
Proof.
  intros Hsize.
  assert (Hok : forall pre t rest,
    rx = pre ++ t :: rest ->
    Forall (fun b => is_terminator b = false) pre ->
    is_terminator t = true ->
    Z.of_nat (length pre) < size ->
    Z.of_nat (length pre) <= 65535 ->
    read_line rx buffer 0 size
    = Some (Returns STAT_OK
              (map byte_to_int pre ++ NUL :: drop (S (length pre)) buffer)
              (Z.of_nat (length pre)) rest)).
  { intros pre t rest -> Hd Ht Hlen Hw.
    rewrite read_line_run by (assumption || lia).
    assert (Hbl : length (blit buffer (Z.to_nat 0) (map byte_to_int pre))
                  = length buffer)
      by (apply blit_length; rewrite length_map; lia).
    rewrite loop_terminator by (assumption || lia).
    do 2 f_equal.
    replace (Z.to_nat (0 + Z.of_nat (length pre)))
      with (0 + length (map byte_to_int pre))%nat by (rewrite length_map; lia).
    change (Z.to_nat 0) with 0%nat.
    rewrite blit_snoc by (rewrite length_map; lia).
    unfold blit. rewrite take_0, length_app, length_map. cbn [app length].
    rewrite <- app_assoc. cbn [app].
    now replace (0 + (length pre + 1))%nat with (S (length pre)) by lia. }
  split; [exact Hok |].
  intros buffer' index' rx' H.
  assert (Hinv : exists pre t,
    rx = pre ++ t :: rx'
    /\ Forall (fun b => is_terminator b = false) pre
    /\ is_terminator t = true).
  { unfold read_line in H. destruct (0 >=? size); [discriminate |].
    eapply loop_ok_inv, H. }
  destruct Hinv as (pre & t & Hrx & Hd & Ht).
  exists pre, t. do 3 (split; [assumption |]).
  intros Hw.
  destruct (Z.lt_ge_cases (Z.of_nat (length pre)) size) as [Hlt | Hge].
  - rewrite (Hok pre t rx' Hrx Hd Ht Hlt Hw) in H.
    injection H as <- <-. now repeat split.
  - (* the buffer would have been full before the terminator *)
    exfalso. subst rx.
    rewrite <- (take_drop (Z.to_nat size) pre), <- app_assoc in H.
    assert (Hn : length (take (Z.to_nat size) pre) = Z.to_nat size)
      by (rewrite length_take; lia).
    rewrite read_line_run in H;
      [| now apply Forall_take | lia | lia | lia | lia].
    rewrite loop_full in H by lia. discriminate.
Qed.

(** The scenario "G1 X10" with a line feed, size 32, cursor 0. *)
Lemma read_line_assembles_line_witness :
  read_line [x47; x31; x20; x58; x31; x30; x0a] (replicate 32 0) 0 32
  = Some (Returns STAT_OK
            (map byte_to_int [x47; x31; x20; x58; x31; x30]
               ++ NUL :: drop 7 (replicate 32 0)) 6 []).
Proof.
  refine (proj1 (read_line_assembles_line
                   [x47; x31; x20; x58; x31; x30; x0a] (replicate 32 0) 32 _)
            [x47; x31; x20; x58; x31; x30] x0a [] eq_refl _ eq_refl _ _).
  - cbn. lia.
  - repeat constructor.
  - cbn. lia.
  - cbn. lia.
Defined.

(** C3.  [read_line] returns [STAT_FILE_SIZE_EXCEEDED], with the buffer,
    the cursor and the queue as they were, when the entry cursor is at or
    beyond the size (so always when the size is 0, the cursor being
    unsigned); with the cursor below the size it never returns it. *)
Theorem read_line_size_exceeded (rx : list byte) (buffer : list Z)
    (index size : Z) :
  (size <= index ->
     read_line rx buffer index size
     = Some (Returns STAT_FILE_SIZE_EXCEEDED buffer index rx))
  /\ (index < size ->
      forall buffer' index' rx',
        read_line rx buffer index size
        <> Some (Returns STAT_FILE_SIZE_EXCEEDED buffer' index' rx')).
Proof.
  split; intros H; unfold read_line;
    (destruct (Z.geb_spec index size) as [Hge | Hlt]; [| ]); try lia.
  - reflexivity.
  - clear H Hlt. generalize (S (length rx)) as fuel. intros fuel.
    revert rx buffer index.
    induction fuel as [| fuel IH]; intros rx buffer index buffer' index' rx';
      [discriminate |].
    destruct (Z.lt_ge_cases index size);
      [| rewrite loop_full by assumption; discriminate].
    destruct rx as [| b rx]; [rewrite loop_no_data by assumption; discriminate |].
    rewrite loop_byte by assumption.
    destruct (store buffer index (byte_to_int b)) as [buffer1 |];
      [| discriminate].
    destruct (is_terminator b); [| apply IH].
    destruct (store buffer1 index NUL); discriminate.
Qed.

(** C4 (as amended).  When the queue holds data bytes only, fewer than
    would fill the buffer, and the cursor stays within 65535, [read_line]
    returns [STAT_EAGAIN]: the bytes are laid into the buffer from the
    entry cursor on, the cursor is the entry cursor plus their number, and
    the rest of the buffer is as it was. *)
Theorem read_line_eagain (pre : list byte) (buffer : list Z) (index size : Z) :
  Forall (fun b => is_terminator b = false) pre ->
  0 <= index ->
  index + Z.of_nat (length pre) < size ->
  size <= Z.of_nat (length buffer) ->
  index + Z.of_nat (length pre) <= 65535 ->
  read_line pre buffer index size
  = Some (Returns STAT_EAGAIN
            (blit buffer (Z.to_nat index) (map byte_to_int pre))
            (index + Z.of_nat (length pre)) []).
Proof.
  intros Hd H0 Hs Hb Hw.
  rewrite <- (app_nil_r pre) at 1.
  rewrite read_line_run by (assumption || lia).
  apply loop_no_data. lia.
Qed.

(** The scenario "ABC" and then no data, size 32, cursor 0. *)
Lemma read_line_eagain_witness :
  read_line [x41; x42; x43] (replicate 32 0) 0 32
  = Some (Returns STAT_EAGAIN ([65; 66; 67] ++ replicate 29 0) 3 []).
Proof.
  refine (read_line_eagain [x41; x42; x43] (replicate 32 0) 0 32 _ _ _ _ _).
  - repeat constructor.
  - lia.
  - cbn. lia.
  - cbn. lia.
  - cbn. lia.
Defined.

(** C5 (as amended).  With the entry cursor below a size of at most
    65535 that the array has, data bytes up to the size make [read_line]
    return [STAT_BUFFER_FULL]: the cursor is the size, the bytes consumed
    are in the buffer from the entry cursor on, and what follows them in
    the queue is not read. *)
Theorem read_line_buffer_full (pre rest : list byte) (buffer : list Z)
    (index size : Z) :
  Forall (fun b => is_terminator b = false) pre ->
  0 <= index < size ->
  index + Z.of_nat (length pre) = size ->
  size <= Z.of_nat (length buffer) ->
  size <= 65535 ->
  read_line (pre ++ rest) buffer index size
  = Some (Returns STAT_BUFFER_FULL
            (blit buffer (Z.to_nat index) (map byte_to_int pre)) size rest).
Proof.
  intros Hd Hi Hs Hb Hw.
  rewrite read_line_run by (assumption || lia).
  rewrite Hs. apply loop_full. lia.
Qed.

(** The scenario of ten data bytes into a buffer of size 5. *)
Lemma read_line_buffer_full_witness :
  read_line ([x30; x31; x32; x33; x34] ++ [x35; x36; x37; x38; x39])
    (replicate 5 0) 0 5
  = Some (Returns STAT_BUFFER_FULL [48; 49; 50; 51; 52] 5
            [x35; x36; x37; x38; x39]).
Proof.
  refine (read_line_buffer_full [x30; x31; x32; x33; x34]
            [x35; x36; x37; x38; x39] (replicate 5 0) 0 5 _ _ _ _ _).
  - repeat constructor.
  - lia.
  - reflexivity.
  - cbn. lia.
  - lia.
Defined.

Lemma read_line_size_exceeded_witness :
  read_line [x41] [] 0 0 = Some (Returns STAT_FILE_SIZE_EXCEEDED [] 0 [x41]).
Proof.
  refine (proj1 (read_line_size_exceeded [x41] [] 0 0) _). lia.
Defined.

(** ** The line reader: frame and bounds *)

(** The invariant of the loop for a size within the range of the cursor:
    it returns, the cursor ends between where it was and the size, and
    only cells from the cursor up to the size may differ. *)
Lemma loop_frame rx : forall fuel buffer index size,
  (length rx < fuel)%nat ->
  0 <= index <= size ->
  size <= Z.of_nat (length buffer) ->
  size <= 65535 ->
  exists st buffer' index' rx',
    read_line_loop fuel rx buffer index size
      = Some (Returns st buffer' index' rx')
    /\ index <= index' <= size
    /\ length buffer' = length buffer
    /\ forall k : nat,
         Z.of_nat k < index \/ size <= Z.of_nat k ->
         buffer' !! k = buffer !! k.
Proof.
  induction rx as [| b rx IH]; intros fuel buffer index size Hf Hi Hb Hw;
    (destruct fuel as [| fuel]; [cbn in Hf; lia |]);
    (destruct (Z.lt_ge_cases index size) as [Hlt | Hge];
      [| rewrite loop_full by assumption;
         exists STAT_BUFFER_FULL, buffer, index; eexists;
         repeat split; (reflexivity || lia)]).
  - rewrite loop_no_data by assumption.
    exists STAT_EAGAIN, buffer, index, []. repeat split; (reflexivity || lia).
  - destruct (is_terminator b) eqn:Ht.
    + rewrite loop_terminator by (assumption || lia).
      exists STAT_OK, (<[Z.to_nat index := NUL]> buffer), index, rx.
      repeat split; try lia.
      * apply length_insert.
      * intros k Hk. apply list_lookup_insert_ne. lia.
    + rewrite loop_data by (assumption || lia).
      rewrite to_uint16_small by lia.
      destruct (IH fuel (<[Z.to_nat index := byte_to_int b]> buffer)
                  (index + 1) size)
        as (st & buffer' & index' & rx' & -> & Hi' & Hlen & Hfr).
      * cbn [length] in Hf. lia.
      * lia.
      * rewrite length_insert. lia.
      * assumption.
      * exists st, buffer', index', rx'. repeat split; try lia.
        -- rewrite Hlen. apply length_insert.
        -- intros k Hk. rewrite Hfr by lia.
           apply list_lookup_insert_ne. lia.
Qed.

(** C6 (as amended).  For a size of at most 65535 that the array has and
    an entry cursor below it, whatever the queue holds, [read_line]
    returns with a cursor between the entry cursor and the size, and the
    buffer it leaves has the length it had and differs from it at no cell
    below the entry cursor and at no cell at or beyond the size. *)
Theorem read_line_frame (rx : list byte) (buffer : list Z) (index size : Z) :
  0 <= index < size ->
  size <= Z.of_nat (length buffer) ->
  size <= 65535 ->
  exists st buffer' index' rx',
    read_line rx buffer index size = Some (Returns st buffer' index' rx')
    /\ index <= index' <= size
    /\ length buffer' = length buffer
    /\ forall k : nat,
         Z.of_nat k < index \/ size <= Z.of_nat k ->
         buffer' !! k = buffer !! k.
Proof.
  intros Hi Hb Hw. unfold read_line.
  destruct (Z.geb_spec index size) as [Hge | _]; [lia |].
  apply loop_frame; (assumption || lia).
Qed.

Lemma read_line_frame_witness :
  exists st buffer' index' rx',
    read_line [x41; x0d; x42] [1; 2; 3; 4; 5; 6] 2 4
      = Some (Returns st buffer' index' rx')
    /\ 2 <= index' <= 4
    /\ length buffer' = length [1; 2; 3; 4; 5; 6]
    /\ forall k : nat,
         Z.of_nat k < 2 \/ 4 <= Z.of_nat k ->
         buffer' !! k = [1; 2; 3; 4; 5; 6] !! k.
Proof.
  refine (read_line_frame [x41; x0d; x42] [1; 2; 3; 4; 5; 6] 2 4 _ _ _).
  - lia.
  - cbn. lia.
  - lia.
Defined.

(** ** The line reader: resuming after [STAT_EAGAIN] *)

(** A run of the loop that ends in [STAT_EAGAIN] has emptied the queue
    with the cursor below the size, and the loop run on that queue with
    more bytes behind it passes through the state that run ended in. *)
Lemma loop_resume pre : forall fuel buffer index size buffer1 index1 rx1,
  read_line_loop fuel pre buffer index size
    = Some (Returns STAT_EAGAIN buffer1 index1 rx1) ->
  rx1 = [] /\ index1 < size
  /\ forall k suffix,
       read_line_loop (length pre + k) (pre ++ suffix) buffer index size
       = read_line_loop k suffix buffer1 index1 size.
Proof.
  induction pre as [| b pre IH];
    intros fuel buffer index size buffer1 index1 rx1 H;
    (destruct fuel as [| fuel]; [discriminate |]);
    (destruct (Z.lt_ge_cases index size);
      [| rewrite loop_full in H by assumption; discriminate]).
  - rewrite loop_no_data in H by assumption.
    injection H as <- <- <-.
    split; [reflexivity | split; [assumption | reflexivity]].
  - rewrite loop_byte in H by assumption.
    destruct (store buffer index (byte_to_int b)) as [buffer0 |] eqn:Hst;
      [| discriminate].
    destruct (is_terminator b) eqn:Ht.
    + destruct (store buffer0 index NUL); discriminate.
    + apply IH in H as (-> & Hlt & Hres).
      split; [reflexivity | split; [assumption |]].
      intros k suffix. cbn [length app Nat.add].
      rewrite loop_byte by assumption. rewrite Hst, Ht. apply Hres.
Qed.

(** C2.  If [read_line] returns [STAT_EAGAIN] on the bytes that have
    arrived, it has read them all, and calling it again with the buffer
    and cursor it left, once [suffix] has arrived, gives the outcome
    (status, buffer, cursor and bytes left unread) of one call that finds
    all the bytes there from the start. *)
Theorem read_line_retry (pre suffix : list byte) (buffer : list Z)
    (index size : Z) (buffer1 : list Z) (index1 : Z) (rx1 : list byte) :
  read_line pre buffer index size
    = Some (Returns STAT_EAGAIN buffer1 index1 rx1) ->
  rx1 = []
  /\ read_line (rx1 ++ suffix) buffer1 index1 size
     = read_line (pre ++ suffix) buffer index size.
Proof.
  unfold read_line. intros H.
  destruct (index >=? size); [discriminate |].
  apply loop_resume in H as (-> & Hlt & Hres).
  split; [reflexivity |].
  destruct (Z.geb_spec index1 size) as [Hge | _]; [lia |].
  cbn [app]. rewrite length_app.
  replace (S (length pre + length suffix))
    with (length pre + S (length suffix))%nat by lia.
  symmetry. apply Hres.
Qed.

(** "G1" arrives first, " X10" and the line feed later. *)
Lemma read_line_retry_witness :
  read_line ([] ++ [x20; x58; x31; x30; x0a]) ([71; 49] ++ replicate 30 0) 2 32
  = read_line ([x47; x31] ++ [x20; x58; x31; x30; x0a]) (replicate 32 0) 0 32.
Proof.
  refine (proj2 (read_line_retry [x47; x31] [x20; x58; x31; x30; x0a]
                   (replicate 32 0) 0 32 ([71; 49] ++ replicate 30 0) 2 [] _)).
  reflexivity.
Defined.

(** ** The line reader: the 16-bit cursor *)

(** From cursor 65535 the increment wraps: a data byte stored there takes
    the loop on with cursor 0. *)
Lemma loop_wrap fuel b rx buffer size :
  65535 < size -> 65535 < Z.of_nat (length buffer) ->
  is_terminator b = false ->
  read_line_loop (S fuel) (b :: rx) buffer 65535 size
  = read_line_loop fuel rx (<[Z.to_nat 65535 := byte_to_int b]> buffer) 0 size.
Proof.
  intros Hs Hb Ht. rewrite loop_data by (assumption || lia). reflexivity.
Qed.

(** C1 as stated fails on a line of 65536 bytes, for a buffer of size
    65537 that could hold it: the cursor has wrapped when the line feed
    arrives, so [STAT_OK] comes with cursor 0, not 65536, and with the NUL
    in the first cell. *)
Lemma read_line_long_line_wraps :
  let pre := replicate (Z.to_nat 65536) x41 in
  let buffer := replicate (Z.to_nat 65537) 0 in
  Forall (fun b => is_terminator b = false) pre
  /\ is_terminator x0a = true
  /\ Z.of_nat (length pre) = 65536
  /\ Z.of_nat (length pre) < 65537 <= Z.of_nat (length buffer)
  /\ exists buffer',
       read_line (pre ++ [x0a]) buffer 0 65537
         = Some (Returns STAT_OK buffer' 0 [])
       /\ buffer' !! 0%nat = Some NUL.
Proof.
  intros pre buffer.
  assert (Hpre : Z.of_nat (length pre) = 65536)
    by (unfold pre; rewrite length_replicate; lia).
  assert (Hbuf : Z.of_nat (length buffer) = 65537)
    by (unfold buffer; rewrite length_replicate; lia).
  split; [now apply Forall_replicate |].
  split; [reflexivity |].
  split; [assumption |].
  split; [lia |].
  set (pre' := replicate (Z.to_nat 65535) x41).
  assert (Hpre' : Z.of_nat (length pre') = 65535)
    by (unfold pre'; rewrite length_replicate; lia).
  assert (Hsplit : pre ++ [x0a] = pre' ++ [x41; x0a]).
  { unfold pre, pre'.
    replace (Z.to_nat 65536) with (S (Z.to_nat 65535)) by lia.
    rewrite replicate_S_end, <- app_assoc. reflexivity. }
  set (buffer1 := blit buffer (Z.to_nat 0) (map byte_to_int pre')).
  assert (Hbuf1 : Z.of_nat (length buffer1) = 65537).
  { unfold buffer1. rewrite blit_length; [assumption |].
    rewrite length_map. lia. }
  exists (<[Z.to_nat 0 := NUL]> (<[Z.to_nat 65535 := byte_to_int x41]> buffer1)).
  split.
  - rewrite Hsplit.
    rewrite read_line_run;
      [| now apply Forall_replicate | lia | lia | lia | lia].
    fold buffer1. rewrite Hpre'. change (0 + 65535) with 65535.
    rewrite loop_wrap; [| lia | lia | reflexivity].
    apply loop_terminator; [lia | | reflexivity].
    rewrite length_insert. lia.
  - apply list_lookup_insert_eq. rewrite length_insert. lia.
Qed.

(** C4 as stated fails at entry cursor 65535 in a buffer of size 65537:
    one data byte and then no data give [STAT_EAGAIN] with the byte stored
    at 65535 but the cursor at 0, not at 65535 + 1. *)
Lemma read_line_eagain_wraps :
  let buffer := replicate (Z.to_nat 65537) 0 in
  is_terminator x41 = false
  /\ 65535 + Z.of_nat (length [x41]) < 65537 <= Z.of_nat (length buffer)
  /\ read_line [x41] buffer 65535 65537
     = Some (Returns STAT_EAGAIN
               (<[Z.to_nat 65535 := byte_to_int x41]> buffer) 0 [])
  /\ 0 <> 65535 + Z.of_nat (length [x41]).
Proof.
  intros buffer.
  assert (Hbuf : Z.of_nat (length buffer) = 65537)
    by (unfold buffer; rewrite length_replicate; lia).
  split; [reflexivity |].
  split; [cbn [length]; lia |].
  split; [| cbn [length]; lia].
  unfold read_line. change (65535 >=? 65537) with false. cbv iota.
  rewrite loop_wrap; [| lia | lia | reflexivity].
  apply loop_no_data. lia.
Qed.

(** C5 as stated fails at entry cursor 65535 in a buffer of size 65536:
    one data byte fills the last cell, but the cursor wraps to 0 instead
    of reaching the size, and with no more data the call returns
    [STAT_EAGAIN] with cursor 0, not [STAT_BUFFER_FULL] with cursor 65536. *)
Lemma read_line_buffer_full_wraps :
  let buffer := replicate (Z.to_nat 65536) 0 in
  is_terminator x41 = false
  /\ 0 <= 65535 < 65536
  /\ 65535 + Z.of_nat (length [x41]) = 65536
  /\ 65536 <= Z.of_nat (length buffer)
  /\ read_line ([x41] ++ []) buffer 65535 65536
     = Some (Returns STAT_EAGAIN
               (<[Z.to_nat 65535 := byte_to_int x41]> buffer) 0 [])
  /\ STAT_EAGAIN <> STAT_BUFFER_FULL.
Proof.
  intros buffer.
  assert (Hbuf : Z.of_nat (length buffer) = 65536)
    by (unfold buffer; rewrite length_replicate; lia).
  split; [reflexivity |].
  split; [lia |].
  split; [cbn [length]; lia |].
  split; [lia |].
  split; [| discriminate].
  unfold read_line. change (65535 >=? 65536) with false. cbv iota.
  cbn [app]. rewrite loop_wrap; [| lia | lia | reflexivity].
  apply loop_no_data. lia.
Qed.

(** C6 as stated fails at entry cursor 65535 in a buffer of size 65537:
    of two data bytes the second is stored in cell 0, below the entry
    cursor, and the call returns with cursor 1, below the entry cursor. *)
Lemma read_line_frame_wraps :
  let buffer := replicate (Z.to_nat 65537) 0 in
  0 <= 65535 < 65537
  /\ 65537 <= Z.of_nat (length buffer)
  /\ exists buffer',
       read_line [x41; x42] buffer 65535 65537
         = Some (Returns STAT_EAGAIN buffer' 1 [])
       /\ 1 < 65535
       /\ buffer !! 0%nat = Some 0
       /\ buffer' !! 0%nat = Some 66.
Proof.
  intros buffer.
  assert (Hbuf : Z.of_nat (length buffer) = 65537)
    by (unfold buffer; rewrite length_replicate; lia).
  split; [lia |]. split; [lia |].
  exists (<[Z.to_nat 0 := byte_to_int x42]>
            (<[Z.to_nat 65535 := byte_to_int x41]> buffer)).
  split; [| split; [lia | split]].
  - unfold read_line. change (65535 >=? 65537) with false. cbv iota.
    rewrite loop_wrap; [| lia | lia | reflexivity]. cbn [length].
    rewrite loop_data; [| lia | rewrite length_insert; lia | reflexivity].
    apply loop_no_data. reflexivity.
  - apply lookup_replicate_2. lia.
  - apply list_lookup_insert_eq. rewrite length_insert. lia.
Qed.

(** ** The integrity guard, the mailboxes and the callback *)

Section XioProperties.

Variable MAGICNUM : Z.
Variables DEV_USB0 DEV_USB1 : nat.
Variables DEVICE_CONNECTED DEVICE_NOT_CONNECTED : Z.

Abbreviation deliver_all :=
  (foldl (deliver DEV_USB0 DEV_USB1 DEVICE_CONNECTED DEVICE_NOT_CONNECTED)).
Abbreviation state_of' := (state_of DEVICE_CONNECTED DEVICE_NOT_CONNECTED).

(** C7.  [xio_test_assertions] returns [STAT_OK] exactly when both
    sentinels hold [MAGICNUM] and [STAT_XIO_ASSERTION_FAILURE] otherwise,
    and leaves the singleton as it was.  So after [xio_init_assertions] it
    returns [STAT_OK]; with either sentinel then set to another value it
    returns [STAT_XIO_ASSERTION_FAILURE]; and with both written back it
    returns [STAT_OK] again. *)
Theorem xio_test_assertions_sentinels (xio : xioSingleton_t) :
  (fst (xio_test_assertions MAGICNUM xio) = STAT_OK
     <-> magic_start xio = MAGICNUM /\ magic_end xio = MAGICNUM)
  /\ (fst (xio_test_assertions MAGICNUM xio) <> STAT_OK
      <-> fst (xio_test_assertions MAGICNUM xio) = STAT_XIO_ASSERTION_FAILURE)
  /\ snd (xio_test_assertions MAGICNUM xio) = xio
  /\ fst (xio_test_assertions MAGICNUM (xio_init_assertions MAGICNUM xio))
     = STAT_OK
  /\ (forall v, v <> MAGICNUM ->
        fst (xio_test_assertions MAGICNUM
               (set_magic_start v (xio_init_assertions MAGICNUM xio)))
          = STAT_XIO_ASSERTION_FAILURE
        /\ fst (xio_test_assertions MAGICNUM
                  (set_magic_end v (xio_init_assertions MAGICNUM xio)))
           = STAT_XIO_ASSERTION_FAILURE)
  /\ (forall v w,
        fst (xio_test_assertions MAGICNUM
               (set_magic_end MAGICNUM
                  (set_magic_start MAGICNUM
                     (set_magic_end w
                        (set_magic_start v
                           (xio_init_assertions MAGICNUM xio))))))
        = STAT_OK).
Proof.
  assert (Hspec : forall x,
    (fst (xio_test_assertions MAGICNUM x) = STAT_OK
       /\ magic_start x = MAGICNUM /\ magic_end x = MAGICNUM)
    \/ (fst (xio_test_assertions MAGICNUM x) = STAT_XIO_ASSERTION_FAILURE
        /\ (magic_start x <> MAGICNUM \/ magic_end x <> MAGICNUM))).
  { intros x. unfold xio_test_assertions.
    destruct (Z.eqb_spec (magic_start x) MAGICNUM) as [Hs | Hs];
      destruct (Z.eqb_spec (magic_end x) MAGICNUM) as [He | He];
      cbn; tauto. }
  repeat split.
  - destruct (Hspec xio) as [(_ & ? & _) | (E & _)]; [tauto | congruence].
  - destruct (Hspec xio) as [(_ & _ & ?) | (E & _)]; [tauto | congruence].
  - intros [Hs He]. destruct (Hspec xio) as [(? & _) | (_ & ?)]; tauto.
  - destruct (Hspec xio) as [(E & _) | (E & _)]; [tauto | intros _; exact E].
  - intros E. rewrite E. discriminate.
  - unfold xio_test_assertions. now destruct (_ || _).
  - destruct (Hspec (xio_init_assertions MAGICNUM xio))
      as [(E & _) | (_ & [H | H])]; [exact E | |]; now cbn in H.
  - destruct (Hspec (set_magic_start v (xio_init_assertions MAGICNUM xio)))
      as [(_ & Hs & _) | (E & _)]; [now cbn in Hs | exact E].
  - destruct (Hspec (set_magic_end v (xio_init_assertions MAGICNUM xio)))
      as [(_ & _ & He) | (E & _)]; [now cbn in He | exact E].
  - intros v w.
    match goal with |- fst (xio_test_assertions _ ?x) = _ =>
      destruct (Hspec x) as [(E & _) | (_ & [Hn | Hn])];
        [exact E | |]; now cbn in Hn
    end.
Qed.

Lemma deliver_length (xio : xioSingleton_t) (n : notification) :
  length (d (deliver DEV_USB0 DEV_USB1 DEVICE_CONNECTED DEVICE_NOT_CONNECTED
               xio n)) = length (d xio).
Proof. destruct n; cbn; apply length_alter. Qed.

Lemma deliver_all_length (evs : list notification) : forall xio,
  length (d (deliver_all xio evs)) = length (d xio).
Proof.
  induction evs as [| n evs IH]; intros xio; [reflexivity |].
  cbn [foldl]. rewrite IH. apply deliver_length.
Qed.

(** What a table entry holds after its [next_state] was written. *)
Lemma pending_alter_eq (dev : nat) (v : Z) (xio : xioSingleton_t) :
  (dev < length (d xio))%nat ->
  pending dev (set_d (alter (set_next_state v) dev (d xio)) xio) = Some v.
Proof.
  intros H. unfold pending. cbn [d set_d].
  rewrite list_lookup_alter_eq.
  destruct (lookup_lt_is_Some_2 (d xio) dev H) as [dv ->]. reflexivity.
Qed.

Lemma pending_alter_ne (dev dev' : nat) (v : Z) (xio : xioSingleton_t) :
  dev <> dev' ->
  pending dev' (set_d (alter (set_next_state v) dev (d xio)) xio)
  = pending dev' xio.
Proof.
  intros H. unfold pending. cbn [d set_d].
  now rewrite list_lookup_alter_ne.
Qed.

(** C8.  Whatever notifications came before, for either port, the
    [next_state] of a device after a notification to it is the state that
    this notification stands for; and a notification to the other port
    leaves it alone.  So the last notification to a device decides what is
    pending for it. *)
Theorem connection_last_write_wins (evs : list notification)
    (connected : bool) (xio : xioSingleton_t) :
  (DEV_USB0 < length (d xio))%nat ->
  (DEV_USB1 < length (d xio))%nat ->
  DEV_USB0 <> DEV_USB1 ->
  pending DEV_USB0 (deliver_all xio (evs ++ [Usb0 connected]))
    = Some (state_of' connected)
  /\ pending DEV_USB1 (deliver_all xio (evs ++ [Usb1 connected]))
     = Some (state_of' connected)
  /\ (forall x,
        pending DEV_USB0
          (deliver DEV_USB0 DEV_USB1 DEVICE_CONNECTED DEVICE_NOT_CONNECTED
             x (Usb1 connected)) = pending DEV_USB0 x)
  /\ (forall x,
        pending DEV_USB1
          (deliver DEV_USB0 DEV_USB1 DEVICE_CONNECTED DEVICE_NOT_CONNECTED
             x (Usb0 connected)) = pending DEV_USB1 x).
Proof.
  intros H0 H1 Hne.
  split; [| split; [| split]].
  - rewrite foldl_snoc. cbn [deliver]. unfold usb0_connection_callback.
    apply pending_alter_eq. now rewrite deliver_all_length.
  - rewrite foldl_snoc. cbn [deliver]. unfold usb1_connection_callback.
    apply pending_alter_eq. now rewrite deliver_all_length.
  - intros x. cbn [deliver]. unfold usb1_connection_callback.
    apply pending_alter_ne. congruence.
  - intros x. cbn [deliver]. unfold usb0_connection_callback.
    now apply pending_alter_ne.
Qed.

(** C9.  [xio_callback] returns [STAT_OK] and leaves the whole singleton
    as it was, so any number of calls in a row does, and what is pending
    for a device stays pending. *)
Theorem xio_callback_inert (xio : xioSingleton_t) :
  xio_callback DEV_USB0 DEV_USB1 xio = (STAT_OK, xio)
  /\ forall n : nat,
       Nat.iter n (fun x => snd (xio_callback DEV_USB0 DEV_USB1 x)) xio = xio
       /\ forall dev,
            pending dev
              (Nat.iter n (fun x => snd (xio_callback DEV_USB0 DEV_USB1 x)) xio)
            = pending dev xio.
Proof.
  assert (H : forall x, xio_callback DEV_USB0 DEV_USB1 x = (STAT_OK, x))
    by (intros x; unfold xio_callback; now destruct (_ && _)).
  split; [apply H |].
  assert (Hn : forall n,
    Nat.iter n (fun x => snd (xio_callback DEV_USB0 DEV_USB1 x)) xio = xio).
  { induction n as [| n IH]; [reflexivity |].
    rewrite Nat.iter_succ, IH, H. reflexivity. }
  intros n. split; [apply Hn |]. intros dev. now rewrite Hn.
Qed.

End XioProperties.

Lemma connection_last_write_wins_witness :
  let xio := mk_xioSingleton 0 [mk_xioDevice 0 0; mk_xioDevice 0 0] [] 0 0 in
  pending 0 (foldl (deliver 0 1 2 1) xio
               ([Usb0 true; Usb1 true; Usb0 false] ++ [Usb0 true]))
    = Some (state_of 2 1 true).
Proof.
  refine (proj1 (connection_last_write_wins 0 1 2 1
                   [Usb0 true; Usb1 true; Usb0 false] true
                   (mk_xioSingleton 0 [mk_xioDevice 0 0; mk_xioDevice 0 0]
                      [] 0 0) _ _ _)).
  - cbn. lia.
  - cbn. lia.
  - lia.
Defined.

(** ** The SPI setter *)

(** C10 (as amended).  Whatever the value, [xio_set_spi] returns
    [STAT_OK] and changes the singleton only in [spi_state], where it
    stores the value converted to [uint8_t]; when [fp_EQ], the comparison
    the code makes, finds the value equal to neither [SPI_ENABLE] nor
    [SPI_DISABLE], and on every build that is not for ARM, the pin modes
    are as they were. *)
Theorem xio_set_spi_stores (value_t : Type) (value_to_uint8 : value_t -> Z)
    (fp_EQ : value_t -> Z -> bool) (__ARM : bool) (nv : nvObj_t value_t)
    (xio : xioSingleton_t) (pins : spi_pins) :
  let r := xio_set_spi value_t value_to_uint8 fp_EQ __ARM nv xio pins in
  fst (fst r) = STAT_OK
  /\ snd (fst r) = set_spi_state (value_to_uint8 (value nv)) xio
  /\ (fp_EQ (value nv) SPI_ENABLE = false ->
      fp_EQ (value nv) SPI_DISABLE = false -> snd r = pins)
  /\ (__ARM = false -> snd r = pins).
Proof.
  cbv zeta. unfold xio_set_spi. cbn [fst snd].
  split; [reflexivity |]. split; [reflexivity |].
  split; [intros -> ->; now destruct __ARM |].
  intros ->. reflexivity.
Qed.

(** C10 as stated fails on a [float].  The value 1 - 2^-20 (0.99999905)
    is neither 1 nor 0, yet it is within the tolerance of 1: on an ARM
    build the three pins go from input to output, and the flag stores 0.
    And the value 2.5, equal to neither constant for [fp_EQ] too, leaves
    the pins alone but is stored as 2. *)
Lemma xio_set_spi_not_verbatim :
  let near_one := S754_finite false 16777200 (-24) in
  let two_and_a_half := S754_finite false 10485760 (-22) in
  let xio := mk_xioSingleton 0 [] [] 1 0 in
  let pins := mk_spi_pins kInput kInput kInput in
  (valid_binary 24 128 near_one = true
   /\ SFeqb near_one (float_of_int SPI_ENABLE) = false
   /\ SFeqb near_one (float_of_int SPI_DISABLE) = false
   /\ xio_set_spi_float true (mk_nvObj near_one) xio pins
      = (STAT_OK, set_spi_state 0 xio, mk_spi_pins kOutput kOutput kOutput))
  /\ (valid_binary 24 128 two_and_a_half = true
      /\ SFeqb two_and_a_half (float_of_int 2) = false
      /\ SFltb (float_of_int 2) two_and_a_half = true
      /\ xio_set_spi_float true (mk_nvObj two_and_a_half) xio pins
         = (STAT_OK, set_spi_state 2 xio, pins)).
Proof.
  cbv zeta. repeat split; vm_compute; reflexivity.
Qed.

(** * Further properties *)

(** ** The line reader: what each status tells *)

Lemma store_Some_inv (buffer buffer' : list Z) (index v : Z) :
  store buffer index v = Some buffer' ->
  0 <= index < Z.of_nat (length buffer)
  /\ buffer' = <[Z.to_nat index := v]> buffer.
Proof.
  unfold store.
  destruct (Z.leb_spec 0 index); cbn [andb]; [| discriminate].
  destruct (Z.ltb_spec index (Z.of_nat (length buffer))); [| discriminate].
  intros [= <-]. split; [lia | reflexivity].
Qed.

Lemma to_uint16_range (n : Z) : 0 <= to_uint16 n <= 65535.
Proof. unfold to_uint16. pose proof (Z.mod_pos_bound n (2 ^ 16)). lia. Qed.

Lemma to_uint16_le (n : Z) : 0 <= n -> to_uint16 n <= n.
Proof. intros H. unfold to_uint16. apply Z.mod_le; lia. Qed.

(** Whatever the loop returns, it has taken [consumed] off the front of
    the queue, kept the length of the buffer and every cell at or beyond
    the size, and the status tells what [consumed] was. *)
Lemma loop_outcome_inv rx : forall fuel buffer index size st buffer' index' rx',
  read_line_loop fuel rx buffer index size
    = Some (Returns st buffer' index' rx') ->
  exists consumed,
    rx = consumed ++ rx'
    /\ length buffer' = length buffer
    /\ (forall k : nat, size <= Z.of_nat k -> buffer' !! k = buffer !! k)
    /\ match st with
       | STAT_OK =>
           exists pre t,
             consumed = pre ++ [t]
             /\ Forall (fun b => is_terminator b = false) pre
             /\ is_terminator t = true
             /\ 0 <= index' < size
             /\ buffer' !! Z.to_nat index' = Some NUL
       | STAT_EAGAIN =>
           rx' = []
           /\ Forall (fun b => is_terminator b = false) consumed
           /\ index' < size
       | STAT_BUFFER_FULL =>
           Forall (fun b => is_terminator b = false) consumed
           /\ (index' = size \/ (consumed = [] /\ index' = index /\ size <= index))
       | _ => False
       end.
Proof.
  induction rx as [| b rx IH];
    intros fuel buffer index size st buffer' index' rx' H;
    (destruct fuel as [| fuel]; [discriminate |]);
    (destruct (Z.lt_ge_cases index size) as [Hlt | Hge];
      [| rewrite loop_full in H by assumption; injection H as <- <- <- <-;
         exists []; split; [reflexivity |]; split; [reflexivity |];
         split; [reflexivity |]; split; [constructor | right; auto]]).
  - rewrite loop_no_data in H by assumption. injection H as <- <- <- <-.
    exists []. split; [reflexivity |]. split; [reflexivity |].
    split; [reflexivity |]. split; [reflexivity |]. split; [constructor | lia].
  - rewrite loop_byte in H by assumption.
    destruct (store buffer index (byte_to_int b)) as [buffer1 |] eqn:Hst;
      [| discriminate].
    apply store_Some_inv in Hst as [Hin ->].
    destruct (is_terminator b) eqn:Ht.
    + destruct (store _ index NUL) as [buffer2 |] eqn:Hst2; [| discriminate].
      apply store_Some_inv in Hst2 as [_ ->].
      injection H as <- <- <- <-.
      exists [b]. split; [reflexivity |].
      split; [now rewrite !length_insert |].
      split.
      * intros k Hk. rewrite !list_lookup_insert_ne by lia. reflexivity.
      * exists [], b. split; [reflexivity |]. split; [constructor |].
        split; [assumption |]. split; [lia |].
        apply list_lookup_insert_eq. rewrite length_insert. lia.
    + apply IH in H as (consumed & -> & Hlen & Hfr & Hst).
      exists (b :: consumed). split; [reflexivity |].
      split; [now rewrite Hlen, length_insert |].
      split.
      * intros k Hk. rewrite Hfr by assumption.
        apply list_lookup_insert_ne. lia.
      * pose proof (to_uint16_le (index + 1)).
        destruct st; try contradiction.
        -- destruct Hst as (pre & t & -> & Hd & Hterm & Hi & Hnul).
           exists (b :: pre), t. split; [reflexivity |].
           split; [now constructor |]. now repeat split.
        -- destruct Hst as (-> & Hd & Hi).
           split; [reflexivity |]. split; [now constructor | assumption].
        -- destruct Hst as (Hd & Hi).
           split; [now constructor |]. left. lia.
Qed.

(** With a cursor that is not negative and a size that the array has, the
    loop returns: no store leaves the array. *)
Lemma loop_safe rx : forall fuel buffer index size,
  (length rx < fuel)%nat ->
  0 <= index ->
  size <= Z.of_nat (length buffer) ->
  exists st buffer' index' rx',
    read_line_loop fuel rx buffer index size
      = Some (Returns st buffer' index' rx').
Proof.
  induction rx as [| b rx IH]; intros fuel buffer index size Hf Hi Hb;
    (destruct fuel as [| fuel]; [cbn in Hf; lia |]);
    (destruct (Z.lt_ge_cases index size) as [Hlt | Hge];
      [| rewrite loop_full by assumption; eauto]).
  - rewrite loop_no_data by assumption. eauto.
  - destruct (is_terminator b) eqn:Ht.
    + rewrite loop_terminator by (assumption || lia). eauto.
    + rewrite loop_data by (assumption || lia).
      apply IH.
      * cbn [length] in Hf. lia.
      * apply to_uint16_range.
      * rewrite length_insert. assumption.
Qed.

(** X1.  Memory safety without any bound on the size: with a cursor that
    is not negative and a size that the array has, [read_line] returns,
    the buffer keeps its length and every cell at or beyond the size, and
    the bytes left in the queue are a tail of those that were there. *)
Theorem read_line_memory_safe (rx : list byte) (buffer : list Z)
    (index size : Z) :
  0 <= index ->
  size <= Z.of_nat (length buffer) ->
  exists st buffer' index' rx',
    read_line rx buffer index size = Some (Returns st buffer' index' rx')
    /\ length buffer' = length buffer
    /\ (forall k : nat, size <= Z.of_nat k -> buffer' !! k = buffer !! k)
    /\ exists consumed, rx = consumed ++ rx'.
Proof.
  intros Hi Hb. unfold read_line.
  destruct (Z.geb_spec index size) as [Hge | Hlt].
  - exists STAT_FILE_SIZE_EXCEEDED, buffer, index, rx.
    split; [reflexivity |]. split; [reflexivity |].
    split; [reflexivity |]. now exists [].
  - destruct (loop_safe rx (S (length rx)) buffer index size)
      as (st & buffer' & index' & rx' & H); [lia | assumption | assumption |].
    exists st, buffer', index', rx'. split; [assumption |].
    apply loop_outcome_inv in H as (consumed & Hrx & Hlen & Hfr & _).
    split; [assumption |]. split; [assumption |]. now exists consumed.
Qed.

Lemma read_line_memory_safe_witness :
  exists st buffer' index' rx',
    read_line [x41; x42; x43] [1; 2; 3; 4] 1 2
      = Some (Returns st buffer' index' rx')
    /\ length buffer' = length [1; 2; 3; 4]
    /\ (forall k : nat, 2 <= Z.of_nat k -> buffer' !! k = [1; 2; 3; 4] !! k)
    /\ exists consumed, [x41; x42; x43] = consumed ++ rx'.
Proof.
  refine (read_line_memory_safe [x41; x42; x43] [1; 2; 3; 4] 1 2 _ _).
  - lia.
  - cbn. lia.
Defined.

(** X2.  The size is trusted: when it overstates the array and data bytes
    have filled the array to its end, the next byte, whatever it is, is
    stored outside the array. *)
Theorem read_line_overstated_size (pre : list byte) (b : byte)
    (rest : list byte) (buffer : list Z) (index size : Z) :
  Forall (fun b => is_terminator b = false) pre ->
  0 <= index ->
  index + Z.of_nat (length pre) = Z.of_nat (length buffer) ->
  Z.of_nat (length buffer) < size ->
  Z.of_nat (length buffer) <= 65535 ->
  read_line (pre ++ b :: rest) buffer index size = Some OutOfBounds.
Proof.
  intros Hd Hi Hfill Hs Hw.
  unfold read_line.
  destruct (Z.geb_spec index size) as [Hge | _]; [lia |].
  rewrite length_app.
  replace (S (length pre + length (b :: rest)))
    with (length pre + S (length (b :: rest)))%nat by lia.
  rewrite loop_run by (assumption || lia).
  rewrite loop_byte by lia.
  rewrite store_None; [reflexivity |].
  rewrite blit_length by (rewrite length_map; lia). lia.
Qed.

Lemma read_line_overstated_size_witness :
  read_line ([x41; x42] ++ x0a :: []) [0; 0; 0] 1 8 = Some OutOfBounds.
Proof.
  refine (read_line_overstated_size [x41; x42] x0a [] [0; 0; 0] 1 8 _ _ _ _ _).
  - repeat constructor.
  - lia.
  - reflexivity.
  - cbn. lia.
  - cbn. lia.
Defined.

(** X3.  [read_line] returns no other status than [STAT_OK],
    [STAT_EAGAIN], [STAT_BUFFER_FULL] and [STAT_FILE_SIZE_EXCEEDED]: the
    [STAT_EOF] of its comment is never returned. *)
Theorem read_line_statuses (rx : list byte) (buffer : list Z) (index size : Z)
    (st : stat_t) (buffer' : list Z) (index' : Z) (rx' : list byte) :
  read_line rx buffer index size = Some (Returns st buffer' index' rx') ->
  st = STAT_OK \/ st = STAT_EAGAIN \/ st = STAT_BUFFER_FULL
  \/ st = STAT_FILE_SIZE_EXCEEDED.
Proof.
  unfold read_line. intros H.
  destruct (index >=? size).
  - injection H as <- _ _ _. tauto.
  - apply loop_outcome_inv in H as (consumed & _ & _ & _ & Hst).
    destruct st; tauto.
Qed.

Lemma read_line_statuses_witness :
  STAT_EAGAIN = STAT_OK \/ STAT_EAGAIN = STAT_EAGAIN
  \/ STAT_EAGAIN = STAT_BUFFER_FULL \/ STAT_EAGAIN = STAT_FILE_SIZE_EXCEEDED.
Proof.
  refine (read_line_statuses [x41] [0; 0] 0 2 STAT_EAGAIN [65; 0] 1 [] _).
  reflexivity.
Defined.

(** X4.  [STAT_EAGAIN] is returned only with the queue read to its end:
    nothing is left unread, no byte read was a CR or LF, and the cursor is
    below the size, so that the call can be made again. *)
Theorem read_line_eagain_inv (rx : list byte) (buffer : list Z)
    (index size : Z) (buffer' : list Z) (index' : Z) (rx' : list byte) :
  read_line rx buffer index size
    = Some (Returns STAT_EAGAIN buffer' index' rx') ->
  rx' = []
  /\ Forall (fun b => is_terminator b = false) rx
  /\ index' < size.
Proof.
  unfold read_line. intros H.
  destruct (index >=? size); [discriminate |].
  apply loop_outcome_inv in H as (consumed & -> & _ & _ & -> & Hd & Hi).
  rewrite app_nil_r. now repeat split.
Qed.

Lemma read_line_eagain_inv_witness :
  @nil byte = []
  /\ Forall (fun b => is_terminator b = false) [x41; x42]
  /\ 2 < 4.
Proof.
  refine (read_line_eagain_inv [x41; x42] [0; 0; 0; 0] 0 4 [65; 66; 0; 0] 2
            [] _).
  reflexivity.
Defined.

(** X5.  [STAT_BUFFER_FULL] is returned only with the cursor equal to the
    size, after data bytes only, and what follows them stays in the
    queue. *)
Theorem read_line_buffer_full_inv (rx : list byte) (buffer : list Z)
    (index size : Z) (buffer' : list Z) (index' : Z) (rx' : list byte) :
  read_line rx buffer index size
    = Some (Returns STAT_BUFFER_FULL buffer' index' rx') ->
  index' = size
  /\ index < size
  /\ exists pre,
       rx = pre ++ rx' /\ Forall (fun b => is_terminator b = false) pre.
Proof.
  unfold read_line. intros H.
  destruct (Z.geb_spec index size) as [Hge | Hlt]; [discriminate |].
  apply loop_outcome_inv in H as (consumed & -> & _ & _ & Hd & Hi).
  split; [lia |]. split; [assumption |]. now exists consumed.
Qed.

Lemma read_line_buffer_full_inv_witness :
  2 = 2 /\ 0 < 2
  /\ exists pre,
       [x41; x42; x43] = pre ++ [x43]
       /\ Forall (fun b => is_terminator b = false) pre.
Proof.
  refine (read_line_buffer_full_inv [x41; x42; x43] [0; 0] 0 2 [65; 66] 2
            [x43] _).
  reflexivity.
Defined.

(** X6.  [STAT_OK] is returned only with a NUL in the cell at the cursor
    and the cursor below the size, after data bytes and one CR or LF; this
    needs no bound on the size either. *)
Theorem read_line_ok_inv (rx : list byte) (buffer : list Z)
    (index size : Z) (buffer' : list Z) (index' : Z) (rx' : list byte) :
  read_line rx buffer index size = Some (Returns STAT_OK buffer' index' rx') ->
  0 <= index' < size
  /\ buffer' !! Z.to_nat index' = Some NUL
  /\ length buffer' = length buffer
  /\ exists pre t,
       rx = pre ++ t :: rx'
       /\ Forall (fun b => is_terminator b = false) pre
       /\ is_terminator t = true.
Proof.
  unfold read_line. intros H.
  destruct (index >=? size); [discriminate |].
  apply loop_outcome_inv in H
    as (consumed & -> & Hlen & _ & pre & t & -> & Hd & Ht & Hi & Hnul).
  split; [assumption |]. split; [assumption |]. split; [assumption |].
  exists pre, t. rewrite <- app_assoc. now repeat split.
Qed.

Lemma read_line_ok_inv_witness :
  0 <= 1 < 3
  /\ [65; 0; 0] !! Z.to_nat 1 = Some NUL
  /\ length [65; 0; 0] = length [7; 7; 0]
  /\ exists pre t,
       [x41; x0d; x0a] = pre ++ t :: [x0a]
       /\ Forall (fun b => is_terminator b = false) pre
       /\ is_terminator t = true.
Proof.
  refine (read_line_ok_inv [x41; x0d; x0a] [7; 7; 0] 0 3 [65; 0; 0] 1 [x0a] _).
  reflexivity.
Defined.

(** ** The line reader: beyond the 16-bit range, whole lines, line ends *)

Lemma loop_not_full rx : forall fuel buffer index size st buffer' index' rx',
  0 <= index <= 65535 ->
  65536 <= size ->
  read_line_loop fuel rx buffer index size
    = Some (Returns st buffer' index' rx') ->
  st = STAT_OK \/ st = STAT_EAGAIN.
Proof.
  induction rx as [| b rx IH];
    intros fuel buffer index size st buffer' index' rx' Hi Hs H;
    (destruct fuel as [| fuel]; [discriminate |]).
  - rewrite loop_no_data in H by lia. injection H as <- _ _ _. tauto.
  - rewrite loop_byte in H by lia.
    destruct (store buffer index (byte_to_int b)) as [buffer1 |];
      [| discriminate].
    destruct (is_terminator b).
    + destruct (store buffer1 index NUL); [| discriminate].
      injection H as <- _ _ _. tauto.
    + eapply IH; [apply to_uint16_range | eassumption | eassumption].
Qed.

(** X7.  For a size beyond the range of the cursor, 65536 or more, that
    the array has, [read_line] returns [STAT_OK] or [STAT_EAGAIN] and
    nothing else: the cursor never reaches the size, so no run of data
    bytes, however long, is answered with [STAT_BUFFER_FULL]. *)
Theorem read_line_never_full_beyond_16_bits (rx : list byte)
    (buffer : list Z) (index size : Z) :
  0 <= index <= 65535 ->
  65536 <= size <= Z.of_nat (length buffer) ->
  exists st buffer' index' rx',
    read_line rx buffer index size = Some (Returns st buffer' index' rx')
    /\ (st = STAT_OK \/ st = STAT_EAGAIN).
Proof.
  intros Hi Hs. unfold read_line.
  destruct (Z.geb_spec index size) as [Hge | _]; [lia |].
  destruct (loop_safe rx (S (length rx)) buffer index size)
    as (st & buffer' & index' & rx' & H); [lia | lia | lia |].
  exists st, buffer', index', rx'. split; [assumption |].
  eapply loop_not_full; [eassumption | | eassumption]. lia.
Qed.

Lemma read_line_never_full_beyond_16_bits_witness :
  exists st buffer' index' rx',
    read_line [x41; x42] (replicate (Z.to_nat 65536) 0) 65535 65536
      = Some (Returns st buffer' index' rx')
    /\ (st = STAT_OK \/ st = STAT_EAGAIN).
Proof.
  refine (read_line_never_full_beyond_16_bits [x41; x42]
            (replicate (Z.to_nat 65536) 0) 65535 65536 _ _).
  - lia.
  - rewrite length_replicate. lia.
Defined.

(** Laying [l2] right behind what [blit] laid is laying both at once. *)
Lemma blit_blit (buffer : list Z) (i : nat) (l1 l2 : list Z) :
  (i + length l1 + length l2 <= length buffer)%nat ->
  blit (blit buffer i l1) (i + length l1) l2 = blit buffer i (l1 ++ l2).
Proof.
  intros H. unfold blit.
  assert (Ht : length (take i buffer ++ l1) = (i + length l1)%nat)
    by (rewrite length_app, length_take; lia).
  rewrite (app_assoc (take i buffer) l1).
  rewrite take_app_length' by (symmetry; exact Ht).
  rewrite drop_app_add' by (symmetry; exact Ht).
  rewrite drop_drop, length_app, <- !app_assoc.
  now rewrite Nat.add_assoc.
Qed.

(** X8.  A line is completed from any entry cursor: when the queue holds
    data bytes and then a CR or LF, the cursor stays within 65535 and
    below a size that the array has, [read_line] returns [STAT_OK] with
    the bytes laid from the entry cursor on and a NUL behind them, the
    cells before and after as they were, the cursor at the NUL, and the
    queue cut behind the terminator. *)
Theorem read_line_completes_line (pre : list byte) (t : byte)
    (rest : list byte) (buffer : list Z) (index size : Z) :
  Forall (fun b => is_terminator b = false) pre ->
  is_terminator t = true ->
  0 <= index ->
  index + Z.of_nat (length pre) < size ->
  size <= Z.of_nat (length buffer) ->
  index + Z.of_nat (length pre) <= 65535 ->
  read_line (pre ++ t :: rest) buffer index size
  = Some (Returns STAT_OK
            (blit buffer (Z.to_nat index) (map byte_to_int pre ++ [NUL]))
            (index + Z.of_nat (length pre)) rest).
Proof.
  intros Hd Ht Hi Hs Hb Hw.
  rewrite read_line_run by (assumption || lia).
  rewrite loop_terminator; [| lia | | assumption].
  - do 2 f_equal.
    replace (Z.to_nat (index + Z.of_nat (length pre)))
      with (Z.to_nat index + length (map byte_to_int pre))%nat
      by (rewrite length_map; lia).
    apply blit_snoc. rewrite length_map. lia.
  - rewrite blit_length by (rewrite length_map; lia). lia.
Qed.

Lemma read_line_completes_line_witness :
  read_line ([x58; x31] ++ x0d :: [x47]) [71; 49; 32; 9; 9; 9; 9; 9] 3 8
  = Some (Returns STAT_OK [71; 49; 32; 88; 49; 0; 9; 9] 5 [x47]).
Proof.
  refine (read_line_completes_line [x58; x31] x0d [x47]
            [71; 49; 32; 9; 9; 9; 9; 9] 3 8 _ _ _ _ _ _).
  - repeat constructor.
  - reflexivity.
  - lia.
  - cbn. lia.
  - cbn. lia.
  - cbn. lia.
Defined.

(** X9.  A line that arrives in two pieces is assembled as if it had
    arrived at once, when the two pieces together are at most 65535 bytes
    and fewer than a size that the array has, and the first call is made
    with cursor 0: the call on the first piece returns [STAT_EAGAIN] with
    the cursor behind it, and the call on the second piece, made with the
    buffer and cursor of the first, returns [STAT_OK] with both pieces in
    the buffer, the NUL behind them and the cursor at their joint
    length. *)
Theorem read_line_two_pieces (pre1 pre2 : list byte) (t : byte)
    (rest : list byte) (buffer : list Z) (size : Z) :
  Forall (fun b => is_terminator b = false) pre1 ->
  Forall (fun b => is_terminator b = false) pre2 ->
  is_terminator t = true ->
  Z.of_nat (length pre1 + length pre2) < size ->
  size <= Z.of_nat (length buffer) ->
  Z.of_nat (length pre1 + length pre2) <= 65535 ->
  exists buffer1,
    read_line pre1 buffer 0 size
      = Some (Returns STAT_EAGAIN buffer1 (Z.of_nat (length pre1)) [])
    /\ read_line (pre2 ++ t :: rest) buffer1 (Z.of_nat (length pre1)) size
       = Some (Returns STAT_OK
                 (map byte_to_int (pre1 ++ pre2)
                    ++ NUL :: drop (S (length pre1 + length pre2)) buffer)
                 (Z.of_nat (length pre1 + length pre2)) rest).
Proof.
  intros Hd1 Hd2 Ht Hs Hb Hw.
  exists (blit buffer 0 (map byte_to_int pre1)).
  assert (Hl1 : length (blit buffer 0 (map byte_to_int pre1)) = length buffer)
    by (apply blit_length; rewrite length_map; lia).
  split.
  - rewrite <- (app_nil_r pre1) at 1.
    rewrite read_line_run by (assumption || lia).
    rewrite loop_no_data by lia. reflexivity.
  - rewrite read_line_run by (assumption || lia).
    rewrite loop_terminator; [| lia | | assumption].
    + f_equal. f_equal; [| lia].
      replace (Z.to_nat (Z.of_nat (length pre1) + Z.of_nat (length pre2)))
        with (Z.to_nat (Z.of_nat (length pre1))
              + length (map byte_to_int pre2))%nat
        by (rewrite length_map; lia).
      rewrite blit_snoc by (rewrite Hl1, length_map; lia).
      replace (Z.to_nat (Z.of_nat (length pre1)))
        with (0 + length (map byte_to_int pre1))%nat
        by (rewrite length_map; lia).
      rewrite blit_blit
        by (rewrite length_app, !length_map; cbn [length]; lia).
      unfold blit. rewrite take_0, !length_app, !length_map, map_app.
      cbn [app length]. rewrite <- !app_assoc. cbn [app].
      now replace (0 + (length pre1 + (length pre2 + 1)))%nat
        with (S (length pre1 + length pre2)) by lia.
    + rewrite blit_length by (rewrite Hl1, length_map; lia). lia.
Qed.

Lemma read_line_two_pieces_witness :
  exists buffer1,
    read_line [x47; x31] (replicate 8 0) 0 8
      = Some (Returns STAT_EAGAIN buffer1 (Z.of_nat (length [x47; x31])) [])
    /\ read_line ([x58] ++ x0a :: []) buffer1
         (Z.of_nat (length [x47; x31])) 8
       = Some (Returns STAT_OK
                 (map byte_to_int ([x47; x31] ++ [x58])
                    ++ NUL :: drop (S (length [x47; x31] + length [x58]))
                                (replicate 8 0))
                 (Z.of_nat (length [x47; x31] + length [x58])) []).
Proof.
  refine (read_line_two_pieces [x47; x31] [x58] x0a [] (replicate 8 0) 8
            _ _ _ _ _ _).
  - repeat constructor.
  - repeat constructor.
  - reflexivity.
  - cbn. lia.
  - cbn. lia.
  - cbn. lia.
Defined.

(** X10.  Only one terminator is taken per line.  For a line of at most
    65535 bytes that is shorter than a size that the array has, read with
    entry cursor 0 and ended by a CR and LF in a row (or any two
    terminators): the call returns [STAT_OK] with the second terminator
    left in the queue, and the next call, made with cursor 0, returns
    [STAT_OK] at once with cursor 0 and a NUL in the first cell, an empty
    line. *)
Theorem read_line_second_terminator (pre : list byte) (t1 t2 : byte)
    (rest : list byte) (buffer : list Z) (size : Z) :
  Forall (fun b => is_terminator b = false) pre ->
  is_terminator t1 = true ->
  is_terminator t2 = true ->
  Z.of_nat (length pre) < size ->
  size <= Z.of_nat (length buffer) ->
  Z.of_nat (length pre) <= 65535 ->
  exists buffer1,
    read_line (pre ++ t1 :: t2 :: rest) buffer 0 size
      = Some (Returns STAT_OK buffer1 (Z.of_nat (length pre)) (t2 :: rest))
    /\ read_line (t2 :: rest) buffer1 0 size
       = Some (Returns STAT_OK (<[0%nat := NUL]> buffer1) 0 rest).
Proof.
  intros Hd Ht1 Ht2 Hs Hb Hw.
  exists (<[Z.to_nat (0 + Z.of_nat (length pre)) := NUL]>
            (blit buffer (Z.to_nat 0) (map byte_to_int pre))).
  assert (Hl : length (blit buffer (Z.to_nat 0) (map byte_to_int pre))
               = length buffer)
    by (apply blit_length; rewrite length_map; lia).
  split.
  - rewrite read_line_run by (assumption || lia).
    rewrite loop_terminator by (assumption || lia).
    reflexivity.
  - unfold read_line.
    destruct (Z.geb_spec 0 size) as [Hge | _]; [lia |].
    rewrite loop_terminator; [reflexivity | lia | | assumption].
    rewrite length_insert, Hl. lia.
Qed.

Lemma read_line_second_terminator_witness :
  exists buffer1,
    read_line ([x41] ++ x0d :: x0a :: [x42]) [9; 9; 9; 9] 0 4
      = Some (Returns STAT_OK buffer1 (Z.of_nat (length [x41])) (x0a :: [x42]))
    /\ read_line (x0a :: [x42]) buffer1 0 4
       = Some (Returns STAT_OK (<[0%nat := NUL]> buffer1) 0 [x42]).
Proof.
  refine (read_line_second_terminator [x41] x0d x0a [x42] [9; 9; 9; 9] 4
            _ _ _ _ _ _).
  - repeat constructor.
  - reflexivity.
  - reflexivity.
  - cbn. lia.
  - cbn. lia.
  - cbn. lia.
Defined.

(** ** Initialisation, notifications and the SPI setter *)

(** Writing [g i] into every cell from [a] on, [n] of them, one after the
    other as the loops of [xio_init] do. *)
Lemma foldl_insert_seq {A : Type} (g : nat -> A) (n : nat) :
  forall (a : nat) (l : list A),
    (a + n <= length l)%nat ->
    foldl (fun l i => <[i := g i]> l) l (seq a n)
    = take a l ++ (g <$> seq a n) ++ drop (a + n) l.
Proof.
  induction n as [| n IH]; intros a l H.
  - cbn. rewrite Nat.add_0_r. symmetry. apply take_drop.
  - cbn [seq foldl fmap list_fmap].
    rewrite IH by (rewrite length_insert; lia).
    rewrite (take_S_r _ a (g a)) by (apply list_lookup_insert_eq; lia).
    rewrite take_insert_ge by lia.
    rewrite drop_insert_lt by lia.
    rewrite <- app_assoc. cbn [app].
    now replace (S a + n)%nat with (a + S n)%nat by lia.
Qed.

Lemma fmap_const_seq {A : Type} (v : A) (n : nat) :
  forall a, (fun _ : nat => v) <$> seq a n = replicate n v.
Proof.
  induction n as [| n IH]; intros a; [reflexivity |].
  cbn [seq fmap list_fmap replicate]. f_equal. apply IH.
Qed.

Lemma foldl_clear_devices (l : list nat) : forall xio,
  foldl (fun x i => set_d (<[i := mk_xioDevice 0 0]> (d x)) x) xio l
  = set_d (foldl (fun t i => <[i := mk_xioDevice 0 0]> t) (d xio) l) xio.
Proof.
  induction l as [| i l IH]; intros xio.
  - now destruct xio.
  - cbn [foldl]. rewrite IH. reflexivity.
Qed.

Lemma foldl_type_channels (l : list nat) : forall xio,
  foldl (fun x i => set_c (<[i := mk_xioChannel (Z.of_nat i)]> (c x)) x) xio l
  = set_c (foldl (fun t i => <[i := mk_xioChannel (Z.of_nat i)]> t) (c xio) l)
      xio.
Proof.
  induction l as [| i l IH]; intros xio.
  - now destruct xio.
  - cbn [foldl]. rewrite IH. reflexivity.
Qed.

(** X11.  [xio_init] leaves one state whatever was there before, but for
    the SPI flag, which it keeps: both sentinels hold [MAGICNUM], so that
    the integrity check passes; every device of the table is cleared, so
    that nothing is pending; and every channel has its number as type.
    The tables are the arrays of [DEV_MAX] and [CHAN_MAX] entries, and the
    two counts fit the [uint8_t] loop counter. *)
Theorem xio_init_state (MAGICNUM : Z) (DEV_MAX CHAN_MAX : nat)
    (xio : xioSingleton_t) :
  length (d xio) = DEV_MAX ->
  length (c xio) = CHAN_MAX ->
  (DEV_MAX <= 255)%nat ->
  (CHAN_MAX <= 255)%nat ->
  let xio' := xio_init MAGICNUM DEV_MAX CHAN_MAX xio in
  xio' = mk_xioSingleton MAGICNUM
           (replicate DEV_MAX (mk_xioDevice 0 0))
           ((fun i => mk_xioChannel (Z.of_nat i)) <$> seq 0 CHAN_MAX)
           (spi_state xio) MAGICNUM
  /\ fst (xio_test_assertions MAGICNUM xio') = STAT_OK
  /\ (forall dev, (dev < DEV_MAX)%nat -> pending dev xio' = Some 0)
  /\ (forall i, (i < CHAN_MAX)%nat ->
        type <$> c xio' !! i = Some (Z.of_nat i)).
Proof.
  intros Hd Hc _ _ xio'.
  assert (E : xio' = mk_xioSingleton MAGICNUM
                       (replicate DEV_MAX (mk_xioDevice 0 0))
                       ((fun i => mk_xioChannel (Z.of_nat i))
                          <$> seq 0 CHAN_MAX)
                       (spi_state xio) MAGICNUM).
  { unfold xio', xio_init.
    rewrite foldl_clear_devices, foldl_type_channels.
    cbn [d c set_d set_c xio_init_assertions set_magic_start set_magic_end
         magic_start magic_end spi_state].
    rewrite (foldl_insert_seq (fun _ => mk_xioDevice 0 0)) by lia.
    rewrite (foldl_insert_seq (fun i => mk_xioChannel (Z.of_nat i))) by lia.
    rewrite !take_0, fmap_const_seq. cbn [app].
    rewrite !drop_ge by lia. now rewrite !app_nil_r. }
  split; [exact E |]. rewrite E. split; [| split].
  - unfold xio_test_assertions. cbn [magic_start magic_end].
    now rewrite Z.eqb_refl.
  - intros dev Hdev. unfold pending. cbn [d].
    now rewrite lookup_replicate_2.
  - intros i Hi. cbn [c]. rewrite list_lookup_fmap.
    assert (Hs : seq 0 CHAN_MAX !! i = Some i)
      by (apply lookup_seq; split; [reflexivity | assumption]).
    rewrite Hs. reflexivity.
Qed.

Lemma xio_init_state_witness :
  let xio := mk_xioSingleton 7 [mk_xioDevice 1 2; mk_xioDevice 2 1]
               [mk_xioChannel 5] 1 9 in
  let xio' := xio_init 4847 2 1 xio in
  xio' = mk_xioSingleton 4847
           (replicate 2 (mk_xioDevice 0 0))
           ((fun i => mk_xioChannel (Z.of_nat i)) <$> seq 0 1)
           (spi_state xio) 4847
  /\ fst (xio_test_assertions 4847 xio') = STAT_OK
  /\ (forall dev, (dev < 2)%nat -> pending dev xio' = Some 0)
  /\ (forall i, (i < 1)%nat -> type <$> c xio' !! i = Some (Z.of_nat i)).
Proof.
  refine (xio_init_state 4847 2 1
            (mk_xioSingleton 7 [mk_xioDevice 1 2; mk_xioDevice 2 1]
               [mk_xioChannel 5] 1 9) _ _ _ _).
  - reflexivity.
  - reflexivity.
  - lia.
  - lia.
Defined.

Section XioFurther.

Variable MAGICNUM : Z.
Variables DEV_USB0 DEV_USB1 : nat.
Variables DEVICE_CONNECTED DEVICE_NOT_CONNECTED : Z.

Abbreviation deliver' :=
  (deliver DEV_USB0 DEV_USB1 DEVICE_CONNECTED DEVICE_NOT_CONNECTED).

(** The table entry a notification is for. *)
Abbreviation port_of n :=
  (match n with Usb0 _ => DEV_USB0 | Usb1 _ => DEV_USB1 end).

(** X12.  A notification writes the [next_state] of its own device and
    nothing else: the sentinels, the channels, the SPI flag, the number of
    devices, the [current_state] of every device and every other entry of
    the device table are as they were. *)
Theorem connection_callback_frame (n : notification) (xio : xioSingleton_t) :
  magic_start (deliver' xio n) = magic_start xio
  /\ magic_end (deliver' xio n) = magic_end xio
  /\ c (deliver' xio n) = c xio
  /\ spi_state (deliver' xio n) = spi_state xio
  /\ length (d (deliver' xio n)) = length (d xio)
  /\ (forall k,
        current_state <$> d (deliver' xio n) !! k
        = current_state <$> d xio !! k)
  /\ (forall k, k <> port_of n -> d (deliver' xio n) !! k = d xio !! k).
Proof.
  repeat (split; [now destruct n |]).
  split; [destruct n; cbn; apply length_alter |].
  split.
  - intros k. destruct n; cbn [deliver d set_d usb0_connection_callback
                                 usb1_connection_callback];
      rewrite list_lookup_alter; case_decide; subst;
      try reflexivity; now destruct (d xio !! k).
  - intros k Hk. destruct n; cbn [deliver d set_d usb0_connection_callback
                                    usb1_connection_callback];
      now rewrite list_lookup_alter_ne.
Qed.

(** X13.  Notifications overwrite: of two in a row to the same port the
    first leaves no trace in the singleton; and notifications to the two
    ports, when these are different entries of the table, can be swapped. *)
Theorem connection_callbacks_compose (xio : xioSingleton_t) (a b : bool) :
  deliver' (deliver' xio (Usb0 a)) (Usb0 b) = deliver' xio (Usb0 b)
  /\ deliver' (deliver' xio (Usb1 a)) (Usb1 b) = deliver' xio (Usb1 b)
  /\ (DEV_USB0 <> DEV_USB1 ->
      deliver' (deliver' xio (Usb0 a)) (Usb1 b)
      = deliver' (deliver' xio (Usb1 b)) (Usb0 a)).
Proof.
  assert (Hover : forall i v w (l : list xioDevice_t),
    alter (set_next_state w) i (alter (set_next_state v) i l)
    = alter (set_next_state w) i l).
  { intros i v w l. rewrite list_alter_alter_eq.
    apply list_alter_ext; [| reflexivity]. now intros [? ?] _. }
  split; [| split].
  - cbn [deliver]. unfold usb0_connection_callback.
    cbn [d set_d]. rewrite Hover. reflexivity.
  - cbn [deliver]. unfold usb1_connection_callback.
    cbn [d set_d]. rewrite Hover. reflexivity.
  - intros Hne. cbn [deliver].
    unfold usb0_connection_callback, usb1_connection_callback.
    cbn [d set_d]. rewrite list_alter_alter_ne by congruence. reflexivity.
Qed.

(** X14.  Nothing but [xio_init_assertions] writes the sentinels: the
    verdict of [xio_test_assertions] is the same after any notifications,
    after [xio_callback] and after [xio_set_spi] as before. *)
Theorem sentinels_kept (xio : xioSingleton_t) (evs : list notification)
    (value_t : Type) (value_to_uint8 : value_t -> Z)
    (fp_EQ : value_t -> Z -> bool) (__ARM : bool) (nv : nvObj_t value_t)
    (pins : spi_pins) :
  fst (xio_test_assertions MAGICNUM (foldl deliver' xio evs))
    = fst (xio_test_assertions MAGICNUM xio)
  /\ fst (xio_test_assertions MAGICNUM
            (snd (xio_callback DEV_USB0 DEV_USB1 xio)))
     = fst (xio_test_assertions MAGICNUM xio)
  /\ fst (xio_test_assertions MAGICNUM
            (snd (fst (xio_set_spi value_t value_to_uint8 fp_EQ __ARM
                         nv xio pins))))
     = fst (xio_test_assertions MAGICNUM xio).
Proof.
  assert (Hext : forall x y,
    magic_start x = magic_start y -> magic_end x = magic_end y ->
    fst (xio_test_assertions MAGICNUM x) = fst (xio_test_assertions MAGICNUM y)).
  { intros x y Hs He. unfold xio_test_assertions. rewrite Hs, He.
    now destruct (_ || _). }
  split; [| split].
  - revert xio. induction evs as [| n evs IH]; intros xio; [reflexivity |].
    cbn [foldl]. rewrite IH. apply Hext; now destruct n.
  - apply Hext; unfold xio_callback; now destruct (_ && _).
  - now apply Hext.
Qed.

End XioFurther.

(** X15.  On an ARM build [xio_set_spi] switches the three pins together:
    to output when [fp_EQ] finds the value equal to [SPI_ENABLE], and
    otherwise to input when it finds it equal to [SPI_DISABLE].  On every
    build a second call with the same value changes nothing more, and the
    flag left by an earlier call with another value leaves no trace. *)
Theorem xio_set_spi_pins (value_t : Type) (value_to_uint8 : value_t -> Z)
    (fp_EQ : value_t -> Z -> bool) (__ARM : bool) (nv : nvObj_t value_t)
    (xio : xioSingleton_t) (pins : spi_pins) :
  let set_spi := xio_set_spi value_t value_to_uint8 fp_EQ __ARM in
  let r := set_spi nv xio pins in
  (__ARM = true -> fp_EQ (value nv) SPI_ENABLE = true ->
   snd r = mk_spi_pins kOutput kOutput kOutput)
  /\ (__ARM = true -> fp_EQ (value nv) SPI_ENABLE = false ->
      fp_EQ (value nv) SPI_DISABLE = true ->
      snd r = mk_spi_pins kInput kInput kInput)
  /\ set_spi nv (snd (fst r)) (snd r) = r
  /\ (forall nv0 pins0,
        snd (fst (set_spi nv (snd (fst (set_spi nv0 xio pins0))) pins))
        = snd (fst r)).
Proof.
  cbv zeta. unfold xio_set_spi. cbn [fst snd].
  split; [intros -> ->; reflexivity |].
  split; [intros -> -> ->; reflexivity |].
  split; [| reflexivity].
  destruct __ARM; [| reflexivity].
  destruct (fp_EQ (value nv) SPI_ENABLE); [reflexivity |].
  destruct (fp_EQ (value nv) SPI_DISABLE); reflexivity.
Qed.
